(** * shw-chatbot: the relay service of [server.js] and of its serverless twin

    A shallow embedding of the two Express applications of the repository
    (the listening variant [server.js] and the exported variant, called
    [Part000] below) and the properties of their request handlers.

    - JavaScript values that travel through the handlers are [jsval]s.
    - The two module-level [Map]s are [gmap]s keyed by the session id.
    - The arrays stored in [conversationHistories] are mutable objects that
      a suspended handler keeps a reference to across its [await]; they live
      in an explicit [heap] and the map holds their locations.
    - A chat handler runs in two parts: everything up to the [await fetch]
      ([chat_start]) and everything after it ([chat_resume]). *)

From Stdlib Require Import ZArith String List Bool Lia.
From stdpp Require Import base tactics option list strings gmap fin_maps pretty.

Set Warnings "-register-all".
Local Open Scope string_scope.
Local Open Scope list_scope.
Local Open Scope Z_scope.

(** ** JavaScript values *)

(** Values of a parsed JSON document, plus [undefined], which property
    access produces.  Numbers are the integers; no claim below depends on
    fractions. *)
Inductive jsval : Type :=
  | JUndefined
  | JNull
  | JBool (b : bool)
  | JNum (n : Z)
  | JStr (s : string)
  | JArr (elems : list jsval)
  | JObj (fields : list (string * jsval)).

(** [!!v] *)
Definition truthy (v : jsval) : bool :=
  match v with
  | JUndefined | JNull => false
  | JBool b => b
  | JNum n => negb (n =? 0)
  | JStr s => negb (String.eqb s "")
  | JArr _ | JObj _ => true
  end.

(** [a || b] *)
Definition js_or (a b : jsval) : jsval := if truthy a then a else b.

Definition nullish (v : jsval) : bool :=
  match v with JUndefined | JNull => true | _ => false end.

Fixpoint assoc (k : string) (fields : list (string * jsval)) : jsval :=
  match fields with
  | [] => JUndefined
  | (k', v) :: rest => if String.eqb k k' then v else assoc k rest
  end.

(** [v.k] for a value that is neither [null] nor [undefined] and a name [k]
    that is no built-in member ([choices], [message], [content], [error]):
    only objects have such a property. *)
Definition prop (v : jsval) (k : string) : jsval :=
  match v with
  | JObj fields => assoc k fields
  | _ => JUndefined
  end.

(** [v[0]] for a value that is neither [null] nor [undefined]. *)
Definition index0 (v : jsval) : jsval :=
  match v with
  | JArr (x :: _) => x
  | JStr (String c _) => JStr (String c "")
  | JObj fields => assoc "0" fields
  | _ => JUndefined
  end.

(** [v?.k] and [v?.[0]] *)
Definition opt_prop (v : jsval) (k : string) : jsval :=
  if nullish v then JUndefined else prop v k.

Definition opt_index0 (v : jsval) : jsval :=
  if nullish v then JUndefined else index0 v.

Fixpoint join_with (sep : string) (l : list string) : string :=
  match l with
  | [] => ""
  | [s] => s
  | s :: rest => s +:+ sep +:+ join_with sep rest
  end.

(** [String(v)], the conversion [new Error(v)] applies to its argument. *)
Fixpoint to_string (v : jsval) : string :=
  match v with
  | JUndefined => "undefined"
  | JNull => "null"
  | JBool true => "true"
  | JBool false => "false"
  | JNum n => pretty n
  | JStr s => s
  | JArr elems =>
      join_with ","
        (map (fun e => if nullish e then "" else to_string e) elems)
  | JObj _ => "[object Object]"
  end.

(** An exception escaping to the handler's [catch]; the payload is
    [err.message]. *)
Inductive outcome (A : Type) : Type :=
  | Ok (a : A)
  | Throw (message : string).
Arguments Ok {A} a.
Arguments Throw {A} message.

#[global] Instance outcome_bind : MBind outcome :=
  fun A B f x => match x with Ok a => f a | Throw m => Throw m end.

(** Reading a property of [null] or [undefined] throws a [TypeError]. *)
Definition type_error (v : jsval) (k : string) : string :=
  "Cannot read properties of " +:+ to_string v +:+ " (reading '" +:+ k +:+ "')".

Definition strict_prop (v : jsval) (k : string) : outcome jsval :=
  if nullish v then Throw (type_error v k) else Ok (prop v k).

(** ** Messages, responses, the upstream *)

Inductive Role : Type := system | user | assistant.

Record Message : Type := mkMessage { role : Role; content : jsval }.

(** What [res.status(s).json(b)] sends; [res.json(b)] sends status 200. *)
Record Response : Type := mkResponse { status : Z; body : jsval }.

Definition res_json (b : jsval) : Response := mkResponse 200 b.
Definition error_body (msg : string) : jsval := JObj [("error", JStr msg)].

(** A response text together with what [JSON.parse] makes of it: a value,
    or a [SyntaxError] with its message. *)
Inductive Parsed : Type :=
  | ParseError (message : string)
  | ParseOk (v : jsval).

Record UpResponse : Type := mkUpResponse {
  up_status : Z;
  up_text : string;
  up_json : Parsed
}.

(** [response.ok] *)
Definition up_ok (r : UpResponse) : bool :=
  (200 <=? up_status r) && (up_status r <=? 299).

(** The behaviour of one outbound call: [fetch] (or reading the body)
    rejects, or a response arrives. *)
Inductive Upstream : Type :=
  | Rejected (message : string)
  | Responded (r : UpResponse).

Definition json_parse (r : UpResponse) : outcome jsval :=
  match up_json r with
  | ParseError m => Throw m
  | ParseOk v => Ok v
  end.

(** ** The request bodies *)

(** [req.body] after [express.json()]: the fields the handlers destructure.
    A field that is absent reads as [JUndefined] / [None].  The message is
    any JSON value; the session id, when given, is a string, as the
    interface has it ([{message, sessionId?: string}]). *)
Record ChatBody : Type := mkChatBody {
  message : jsval;
  chat_sessionId : option string
}.

Record ClearBody : Type := mkClearBody { clear_sessionId : option string }.

(** [sessionId = 'default'] in the destructuring patterns *)
Definition session_of (o : option string) : string := default "default" o.

(** ** The server state *)

(** Locations of arrays in the heap. *)
Abbreviation loc := nat (only parsing).

Record State : Type := mkState {
  heap : list (list Message);
  conversationHistories : gmap string loc;
  requestTimes : gmap string Z
}.

Definition init : State := mkState [] ∅ ∅.

(** The array a session's entry of [conversationHistories] refers to. *)
Definition transcript (st : State) (sid : string) : option (list Message) :=
  l ← conversationHistories st !! sid; heap st !! l.

(** [arr.push(m)] through a reference *)
Definition push (h : loc) (m : Message) (hp : list (list Message))
  : list (list Message) :=
  alter (fun arr => arr ++ [m]) h hp.

(** [arr.splice(start, count)] for [start <= arr.length] and [0 <= count];
    the removed elements are not used. *)
Definition splice {A} (start count : nat) (arr : list A) : list A :=
  take start arr ++ drop (start + count) arr.

Definition MIN_REQUEST_INTERVAL : Z := 1000.
Definition MODEL : string := "nvidia/nemotron-nano-9b-v2:free".

(** [Math.ceil(a / b)] for integers [a] and [0 < b] *)
Definition ceil_div (a b : Z) : Z := - ((- a) / b).

(** [requestTimes.get(sessionId) || 0] *)
Definition last_request (st : State) (sid : string) : Z :=
  default 0 (requestTimes st !! sid).

(** [data.choices?.[0]?.message?.content], the same expression in both
    files: the first access is a plain one and throws on [null]. *)
Definition completion (data : jsval) : outcome jsval :=
  choices ← strict_prop data "choices";
  Ok (opt_prop (opt_prop (opt_index0 choices) "message") "content").

(** How the synchronous part of a chat handler ends: it has answered, or it
    is suspended in [await fetch] holding [history] and having serialised
    the array into the outbound request. *)
Inductive Started : Type :=
  | Done (r : Response)
  | Await (history : loc) (sent : list Message).

(** [process.env.X] as a value *)
Definition env_val (o : option string) : jsval :=
  match o with Some s => JStr s | None => JUndefined end.

(** [KEY ? KEY.slice(0, 8) + '...' : 'Not set'] *)
Definition key_prefix (key : option string) : string :=
  match key with
  | Some k => if truthy (JStr k) then substring 0 8 k +:+ "..." else "Not set"
  | None => "Not set"
  end.

(** ** [server.js] *)
Module ServerJs.

Definition SYSTEM_PROMPT : string :=
  "You are a helpful, friendly, and knowledgeable AI assistant. 
You provide clear, concise, and accurate responses. You're conversational but professional.
You can help with a wide variety of topics including general knowledge, coding, writing, analysis, and more.".

(** [app.post('/api/chat')] up to its [await fetch(...)]. *)
Definition chat_start (st : State) (now : Z) (req : ChatBody)
  : Started * State :=
  let sessionId := session_of (chat_sessionId req) in
  if negb (truthy (message req)) then
    (Done (mkResponse 400 (error_body "Message is required")), st)
  else
    let lastRequest := last_request st sessionId in
    let elapsed := now - lastRequest in
    if elapsed <? MIN_REQUEST_INTERVAL then
      let wait := ceil_div (MIN_REQUEST_INTERVAL - elapsed) 1000 in
      (Done (mkResponse 429 (error_body
         ("Please wait " +:+ pretty wait +:+ "s before next message."))), st)
    else
      let times := <[sessionId := now]> (requestTimes st) in
      let '(history, hp, histories) :=
        match conversationHistories st !! sessionId with
        | Some h => (h, heap st, conversationHistories st)
        | None =>
            (length (heap st),
             heap st ++ [[mkMessage system (JStr SYSTEM_PROMPT)]],
             <[sessionId := length (heap st)]> (conversationHistories st))
        end in
      let hp := push history (mkMessage user (message req)) hp in
      let hp :=
        alter (fun arr => if (21 <? length arr)%nat
                          then splice 1 (length arr - 21) arr else arr)
              history hp in
      (Await history (default [] (hp !! history)), mkState hp histories times).

(** Lines 60-89: from the arrival of the upstream answer to the reply text,
    or to the exception that reaches the [catch]. *)
Definition extract_reply (up : Upstream) : outcome jsval :=
  match up with
  | Rejected m => Throw m
  | Responded r =>
      if negb (up_ok r) then
        match up_json r with
        | ParseError _ =>
            Throw ("HTTP " +:+ pretty (up_status r) +:+ ": " +:+ up_text r)
        | ParseOk errorData =>
            e ← strict_prop errorData "error";
            let errorMessage :=
              js_or (js_or (opt_prop e "message") (prop errorData "message"))
                    (JStr "Unknown error") in
            Throw (to_string errorMessage)
        end
      else
        data ← json_parse r;
        reply ← completion data;
        if negb (truthy reply) then Throw "Invalid response from OpenRouter"
        else Ok reply
  end.

(** The handler after its [await]; [iso] is [new Date().toISOString()]. *)
Definition chat_resume (st : State) (history : loc) (up : Upstream)
    (iso : string) : Response * State :=
  match extract_reply up with
  | Ok reply =>
      (res_json (JObj [("reply", reply); ("model", JStr MODEL);
                       ("timestamp", JStr iso)]),
       mkState (push history (mkMessage assistant reply) (heap st))
               (conversationHistories st) (requestTimes st))
  | Throw m => (mkResponse 500 (error_body m), st)
  end.

(** [app.post('/api/clear')] *)
Definition clear (st : State) (req : ClearBody) : Response * State :=
  let sessionId := session_of (clear_sessionId req) in
  (res_json (JObj [("message", JStr "Conversation cleared")]),
   mkState (heap st)
           (delete sessionId (conversationHistories st))
           (delete sessionId (requestTimes st))).

(** [app.get('/api/health')] *)
Definition health (key : option string) : Response :=
  res_json (JObj [("status", JStr "ok");
                  ("openrouterConfigured", JBool (truthy (env_val key)));
                  ("model", JStr MODEL);
                  ("apiKey", JStr (key_prefix key))]).

(** [app.get('/api/test-key')]: [r.json()] is the parse of the body. *)
Definition test_key (up : Upstream) : Response :=
  match up with
  | Rejected m => mkResponse 500 (error_body m)
  | Responded r =>
      match json_parse r with
      | Throw m => mkResponse 500 (error_body m)
      | Ok data =>
          res_json (JObj [("valid", JBool (up_ok r));
                          ("status", JNum (up_status r));
                          ("data", data)])
      end
  end.

(** The [setInterval] callback.  The loop visits the entries of
    [requestTimes] and deletes only the entry it is visiting, so it is a
    fold over the entries the map had when the loop began. *)
Definition reaper (st : State) (now : Z) : State :=
  let cutoff := now - 3600000 in
  map_fold
    (fun id t acc =>
       if t <? cutoff then
         mkState (heap acc)
                 (delete id (conversationHistories acc))
                 (delete id (requestTimes acc))
       else acc)
    st (requestTimes st).

End ServerJs.

(** ** The exported variant (the second source file) *)
Module Part000.

Definition SYSTEM_PROMPT : string :=
  "You are a helpful, friendly, and knowledgeable AI assistant. 
You provide clear, concise, and accurate responses. You're conversational but professional.".

(** [app.post('/api/chat')] up to its [await fetch(...)]. *)
Definition chat_start (st : State) (now : Z) (req : ChatBody)
  : Started * State :=
  let sessionId := session_of (chat_sessionId req) in
  if negb (truthy (message req)) then
    (Done (mkResponse 400 (error_body "Message is required")), st)
  else
    let last := last_request st sessionId in
    if now - last <? MIN_REQUEST_INTERVAL then
      (Done (mkResponse 429 (error_body "Please wait 1s between messages.")),
       st)
    else
      let times := <[sessionId := now]> (requestTimes st) in
      let '(history, hp, histories) :=
        match conversationHistories st !! sessionId with
        | Some h => (h, heap st, conversationHistories st)
        | None =>
            (length (heap st),
             heap st ++ [[mkMessage system (JStr SYSTEM_PROMPT)]],
             <[sessionId := length (heap st)]> (conversationHistories st))
        end in
      let hp := push history (mkMessage user (message req)) hp in
      let hp :=
        alter (fun arr => if (21 <? length arr)%nat
                          then splice 1 (length arr - 21) arr else arr)
              history hp in
      (Await history (default [] (hp !! history)), mkState hp histories times).

(** Lines 82-83: the reply text, with its fallback. *)
Definition extract_reply (r : UpResponse) : outcome jsval :=
  data ← json_parse r;
  c ← completion data;
  Ok (js_or c (JStr "No response from model.")).

(** The handler after its [await]; [iso] is [new Date().toISOString()]. *)
Definition chat_resume (st : State) (history : loc) (up : Upstream)
    (iso : string) : Response * State :=
  match up with
  | Rejected m => (mkResponse 500 (error_body m), st)
  | Responded r =>
      if negb (up_ok r) then
        (mkResponse (up_status r) (error_body (up_text r)), st)
      else
        match extract_reply r with
        | Ok reply =>
            (res_json (JObj [("reply", reply); ("model", JStr MODEL);
                             ("timestamp", JStr iso)]),
             mkState (push history (mkMessage assistant reply) (heap st))
                     (conversationHistories st) (requestTimes st))
        | Throw m => (mkResponse 500 (error_body m), st)
        end
  end.

(** [app.post('/api/clear')] *)
Definition clear (st : State) (req : ClearBody) : Response * State :=
  let sessionId := session_of (clear_sessionId req) in
  (res_json (JObj [("message", JStr "Conversation cleared")]),
   mkState (heap st)
           (delete sessionId (conversationHistories st))
           (delete sessionId (requestTimes st))).

(** [app.get('/api/health')] *)
Definition health (key : option string) : Response :=
  res_json (JObj [("status", JStr "ok");
                  ("message", JStr "Chatbot is running");
                  ("model", JStr MODEL);
                  ("openrouterConfigured", JBool (truthy (env_val key)));
                  ("apiKeyPrefix", JStr (key_prefix key))]).

(** [app.get('/api/test-key')]: [r.json()] is the parse of the body. *)
Definition test_key (up : Upstream) : Response :=
  match up with
  | Rejected m => mkResponse 500 (error_body m)
  | Responded r =>
      match json_parse r with
      | Throw m => mkResponse 500 (error_body m)
      | Ok data =>
          res_json (JObj [("valid", JBool (up_ok r));
                          ("status", JNum (up_status r));
                          ("data", data)])
      end
  end.

(** The [setInterval] callback.  The loop visits the entries of
    [requestTimes] and deletes only the entry it is visiting, so it is a
    fold over the entries the map had when the loop began. *)
Definition reaper (st : State) (now : Z) : State :=
  let cutoff := now - 3600000 in
  map_fold
    (fun id t acc =>
       if t <? cutoff then
         mkState (heap acc)
                 (delete id (conversationHistories acc))
                 (delete id (requestTimes acc))
       else acc)
    st (requestTimes st).

End Part000.

(** ** The service as a transition system *)

(** The two implementations. *)
Inductive Impl : Type := server_js | part_000.

Definition SYSTEM_PROMPT (i : Impl) : string :=
  match i with
  | server_js => ServerJs.SYSTEM_PROMPT
  | part_000 => Part000.SYSTEM_PROMPT
  end.

Definition chat_start (i : Impl) : State -> Z -> ChatBody -> Started * State :=
  match i with
  | server_js => ServerJs.chat_start
  | part_000 => Part000.chat_start
  end.

Definition chat_resume (i : Impl)
  : State -> loc -> Upstream -> string -> Response * State :=
  match i with
  | server_js => ServerJs.chat_resume
  | part_000 => Part000.chat_resume
  end.

Definition health (i : Impl) : option string -> Response :=
  match i with
  | server_js => ServerJs.health
  | part_000 => Part000.health
  end.

Definition clear (i : Impl) : State -> ClearBody -> Response * State :=
  match i with
  | server_js => ServerJs.clear
  | part_000 => Part000.clear
  end.

Definition test_key (i : Impl) : Upstream -> Response :=
  match i with
  | server_js => ServerJs.test_key
  | part_000 => Part000.test_key
  end.

Definition reaper (i : Impl) : State -> Z -> State :=
  match i with
  | server_js => ServerJs.reaper
  | part_000 => Part000.reaper
  end.

(** A chat request served without any other handler running during its
    [await]. *)
Definition chat (i : Impl) (st : State) (now : Z) (req : ChatBody)
    (up : Upstream) (iso : string) : Response * State :=
  match chat_start i st now req with
  | (Done r, st') => (r, st')
  | (Await history _, st') => chat_resume i st' history up iso
  end.

(** What can happen to the server: the four routes and the timer.  A chat
    event carries the clock reading on arrival, the request, the behaviour
    of the upstream and the clock text on completion. *)
Inductive Event : Type :=
  | EChat (now : Z) (req : ChatBody) (up : Upstream) (iso : string)
  | EClear (req : ClearBody)
  | EHealth (key : option string)
  | ETestKey (up : Upstream)
  | EReap (now : Z).

(** One event handled to completion: the answer, if the event has one, and
    the next state. *)
Definition handle (i : Impl) (st : State) (ev : Event)
  : option Response * State :=
  match ev with
  | EChat now req up iso =>
      let '(r, st') := chat i st now req up iso in (Some r, st')
  | EClear req => let '(r, st') := clear i st req in (Some r, st')
  | EHealth key => (Some (health i key), st)
  | ETestKey up => (Some (test_key i up), st)
  | EReap now => (None, reaper i st now)
  end.

(** The state after a sequence of events, none overlapping another. *)
Definition run (i : Impl) (evs : list Event) (st : State) : State :=
  foldl (fun s ev => (handle i s ev).2) st evs.

(** The server with chat handlers suspended in their [await]: the state and
    the arrays the suspended handlers hold. *)
Record Sys : Type := mkSys { sys_state : State; inflight : list loc }.

(** One turn of the event loop. *)
Inductive step (i : Impl) : Sys -> Sys -> Prop :=
  | step_answer st fl now req r st' :
      chat_start i st now req = (Done r, st') ->
      step i (mkSys st fl) (mkSys st' fl)
  | step_await st fl now req history sent st' :
      chat_start i st now req = (Await history sent, st') ->
      step i (mkSys st fl) (mkSys st' (history :: fl))
  | step_resume st fl1 history fl2 up iso r st' :
      chat_resume i st history up iso = (r, st') ->
      step i (mkSys st (fl1 ++ history :: fl2)) (mkSys st' (fl1 ++ fl2))
  | step_clear st fl req :
      step i (mkSys st fl) (mkSys (clear i st req).2 fl)
  | step_reap st fl now :
      step i (mkSys st fl) (mkSys (reaper i st now) fl).

Definition reachable (i : Impl) (s : Sys) : Prop :=
  rtc (step i) (mkSys init []) s.

(** ** The common form of the two chat handlers

    Up to the [await] the two files run the same statements; they differ in
    the system prompt and in the text of the 429 answer. *)

(** [if (history.length > 21) history.splice(1, history.length - 21)] *)
Definition trim (arr : list Message) : list Message :=
  if (21 <? length arr)%nat then splice 1 (length arr - 21) arr else arr.

Definition system_message (prompt : string) : Message :=
  mkMessage system (JStr prompt).

Definition limit_text (i : Impl) (elapsed : Z) : string :=
  match i with
  | server_js =>
      "Please wait " +:+ pretty (ceil_div (MIN_REQUEST_INTERVAL - elapsed) 1000)
      +:+ "s before next message."
  | part_000 => "Please wait 1s between messages."
  end.

(** Lines 50-53: the array of the session, created when there is none. *)
Definition ensure_history (prompt : string) (sid : string) (st : State)
  : loc * State :=
  match conversationHistories st !! sid with
  | Some h => (h, st)
  | None =>
      let h := length (heap st) in
      (h, mkState (heap st ++ [[system_message prompt]])
                  (<[sid := h]> (conversationHistories st))
                  (requestTimes st))
  end.

(** Lines 46-55: the request is accepted.  The time is recorded, the array
    is found or created, the user message is pushed and the array trimmed;
    the handler then suspends. *)
Definition accept (prompt : string) (sessionId : string) (now : Z)
    (msg : jsval) (st : State) : Started * State :=
  let st1 := mkState (heap st) (conversationHistories st)
                     (<[sessionId := now]> (requestTimes st)) in
  let '(history, st2) := ensure_history prompt sessionId st1 in
  let hp := push history (mkMessage user msg) (heap st2) in
  let hp := alter trim history hp in
  (Await history (default [] (hp !! history)),
   mkState hp (conversationHistories st2) (requestTimes st2)).

(** ** Predicates used in the statements *)

(** The session ids of [conversationHistories] refer to arrays of the heap,
    each to its own. *)
Definition valid (st : State) : Prop :=
  forall sid l, conversationHistories st !! sid = Some l ->
    is_Some (heap st !! l).

Definition separate (st : State) : Prop :=
  forall s1 s2 l, conversationHistories st !! s1 = Some l ->
    conversationHistories st !! s2 = Some l -> s1 = s2.

(** The array the next user message of a session is pushed onto: the
    session's transcript, or a fresh array holding the system message. *)
Definition prior (prompt : string) (st : State) (sid : string) : list Message :=
  default [system_message prompt] (transcript st sid).

(** Every array of the heap begins with the system message. *)
Definition heads (prompt : string) (st : State) : Prop :=
  forall l arr, heap st !! l = Some arr ->
    arr !! 0%nat = Some (system_message prompt).

(** Every array of the heap has at most [n] elements. *)
Definition bounded (n : nat) (st : State) : Prop :=
  forall l arr, heap st !! l = Some arr -> (length arr <= n)%nat.

(** Every session with a transcript has a rate-limit entry. *)
Definition covered (st : State) : Prop :=
  forall sid, is_Some (conversationHistories st !! sid) ->
    is_Some (requestTimes st !! sid).

(** The invariant of the server state under the system prompt [prompt]. *)
Definition wf (prompt : string) (st : State) : Prop :=
  valid st /\ separate st /\ heads prompt st /\ covered st.

(** The reaper's test on an entry of a map of times: [t < cutoff]. *)
Definition expired (cutoff : Z) (times : gmap string Z) (sid : string) : bool :=
  match times !! sid with
  | Some t => t <? cutoff
  | None => false
  end.

(** The success answer of the chat route. *)
Definition reply_body (reply : jsval) (iso : string) : jsval :=
  JObj [("reply", reply); ("model", JStr MODEL); ("timestamp", JStr iso)].

(** The completion text of an upstream answer: the body parsed, then
    [choices?.[0]?.message?.content]. *)
Definition completion_of (r : UpResponse) : outcome jsval :=
  data ← json_parse r; completion data.

(** A caller-visible error: a body [{error: msg}] under a status that is
    not a success. *)
Definition is_error (r : Response) : Prop :=
  (exists msg, body r = error_body msg) /\ ~ (200 <= status r <= 299).

(** The field names of a JSON body. *)
Definition shape (b : jsval) : list string :=
  match b with
  | JObj fields => map fst fields
  | _ => []
  end.

(** A transcript with the text of its system messages blanked: the two
    files seed different prompts. *)
Definition blank (m : Message) : Message :=
  match role m with
  | system => mkMessage system JUndefined
  | _ => m
  end.

Definition skeleton (st : State) : State :=
  mkState (fmap (M:=list) blank <$> heap st)
          (conversationHistories st) (requestTimes st).

(** The upstream behaviours on which the two chat handlers do the same:
    the call fails, or it answers with success and, if the payload can be
    read, with a completion text. *)
Definition agreeing (up : Upstream) : Prop :=
  match up with
  | Rejected _ => True
  | Responded r =>
      up_ok r = true /\ forall c, completion_of r = Ok c -> truthy c = true
  end.

(** A stub upstream answering 200 with [{choices:[{message:{content}}]}]. *)
Definition completion_payload (text : string) : jsval :=
  JObj [("choices", JArr [JObj [("message", JObj [("content", JStr text)])]])].

Definition stub_ok (text : string) : Upstream :=
  Responded (mkUpResponse 200 "" (ParseOk (completion_payload text))).

Definition say (now : Z) (text : string) : Event :=
  EChat now (mkChatBody (JStr text) None) (stub_ok "hello") "".

(** Chats of the default session, two seconds apart, each answered before
    the next arrives. *)
Definition chats (n : nat) : list Event :=
  map (fun k => say (2000 * Z.of_nat k) "hi") (seq 1 n).

Definition eleven_chats : list Event := chats 11.

(** ** Configuration

    The same statements in both files (lines 15-21 of [server.js], 12-19 of
    the exported variant); the arguments are the environment variables. *)

(** [process.env.X || d] *)
Definition env_or (o : option string) (d : string) : string :=
  to_string (js_or (env_val o) (JStr d)).

(** [process.env.OPENROUTER_URL || 'https://openrouter.ai/...'] *)
Definition OPENROUTER_URL (openrouter_url : option string) : string :=
  env_or openrouter_url "https://openrouter.ai/api/v1/chat/completions".

(** [process.env.VERCEL_URL ? `https://${process.env.VERCEL_URL}`
    : process.env.APP_URL || 'http://localhost:3000'] *)
Definition APP_URL (vercel_url app_url : option string) : string :=
  if truthy (env_val vercel_url)
  then "https://" +:+ to_string (env_val vercel_url)
  else env_or app_url "http://localhost:3000".

(** ** Further predicates *)

(** The upstream answers with success and the completion text [c]. *)
Definition succeeds (up : Upstream) (c : jsval) : Prop :=
  exists r, up = Responded r /\ up_ok r = true /\
            completion_of r = Ok c /\ truthy c = true.

(** A property of every array of the heap, referenced or not. *)
Definition heap_all (P : list Message -> Prop) (st : State) : Prop :=
  forall l arr, heap st !! l = Some arr -> P arr.

(** The system message, then user and assistant messages only. *)
Definition dialogue (prompt : string) (arr : list Message) : Prop :=
  arr !! 0%nat = Some (system_message prompt) /\
  Forall (fun m => role m <> system) (drop 1 arr).

(** No message with an empty (falsy) content. *)
Definition spoken (arr : list Message) : Prop :=
  Forall (fun m => truthy (content m) = true) arr.

(** * Properties *)

(** ** Trimming *)

Lemma trim_splice (arr : list Message) :
  trim arr = splice 1 (length arr - 21) arr.
Proof.
  unfold trim, splice. destruct (Nat.ltb_spec 21 (length arr)) as [H|H]; [done|].
  replace (length arr - 21)%nat with 0%nat by lia.
  by rewrite Nat.add_0_r, take_drop.
Qed.

Lemma trim_short (arr : list Message) :
  (length arr <= 21)%nat -> trim arr = arr.
Proof.
  intros H. unfold trim. by destruct (Nat.ltb_spec 21 (length arr)); [lia|].
Qed.

Lemma length_trim (arr : list Message) : (length (trim arr) <= 21)%nat.
Proof.
  unfold trim, splice. destruct (Nat.ltb_spec 21 (length arr)) as [H|H]; [|done].
  rewrite length_app, length_take, length_drop. lia.
Qed.

Lemma trim_head (arr : list Message) (m : Message) :
  arr !! 0%nat = Some m -> trim arr !! 0%nat = Some m.
Proof.
  intros H. rewrite trim_splice. unfold splice.
  destruct arr as [|x arr]; [done|]. by simplify_eq/=.
Qed.

Lemma trim_last (arr : list Message) (m : Message) :
  last (trim (arr ++ [m])) = Some m.
Proof.
  unfold trim, splice. case_match; [|apply last_snoc].
  apply Nat.ltb_lt in H. rewrite length_app in *. simpl in *.
  rewrite drop_app_le by lia.
  rewrite (assoc_L (++)). apply last_snoc.
Qed.

Lemma trim_sublist (arr : list Message) : sublist (trim arr) arr.
Proof.
  rewrite trim_splice. unfold splice.
  trans (take 1 arr ++ drop 1 arr); [|by rewrite take_drop].
  apply sublist_app; [done|].
  rewrite <- drop_drop. apply sublist_drop.
Qed.

Lemma trim_blank (arr : list Message) :
  blank <$> trim arr = trim (blank <$> arr).
Proof.
  unfold trim, splice. rewrite length_fmap.
  case_match; [|done]. by rewrite fmap_app, fmap_take, fmap_drop.
Qed.

(** ** The accepted request *)

Lemma lookup_push (h l : loc) (m : Message) (hp : list (list Message)) :
  push h m hp !! l =
  if decide (h = l) then (fun arr => arr ++ [m]) <$> hp !! l else hp !! l.
Proof.
  unfold push. case_decide as E.
  - subst. apply list_lookup_alter_eq.
  - by apply list_lookup_alter_ne.
Qed.

Lemma accept_spec (p sid : string) (now : Z) (msg : jsval) (st : State) :
  valid st ->
  exists h st',
    let sent := trim (prior p st sid ++ [mkMessage user msg]) in
    accept p sid now msg st = (Await h sent, st') /\
    conversationHistories st' = <[sid := h]> (conversationHistories st) /\
    requestTimes st' = <[sid := now]> (requestTimes st) /\
    heap st' !! h = Some sent /\
    (forall l, l <> h -> heap st' !! l = heap st !! l) /\
    (conversationHistories st !! sid = Some h \/
     conversationHistories st !! sid = None /\ h = length (heap st)).
Proof.
  intros Hv. unfold accept, ensure_history, prior, transcript. simpl.
  destruct (conversationHistories st !! sid) as [l|] eqn:E; simpl.
  - destruct (Hv _ _ E) as [arr Harr]. rewrite Harr. simpl.
    assert (alter trim l (push l (mkMessage user msg) (heap st)) !! l
            = Some (trim (arr ++ [mkMessage user msg]))) as Hl.
    { by rewrite list_lookup_alter_eq, lookup_push, decide_True, Harr. }
    exists l. eexists. rewrite Hl. simpl. split_and!; try done; simpl.
    + by rewrite insert_id.
    + intros l' Hne. rewrite list_lookup_alter_ne by done.
      rewrite lookup_push. by rewrite decide_False.
    + by left.
  - set (h := length (heap st)).
    assert ((heap st ++ [[system_message p]]) !! h = Some [system_message p])
      as Hh by (by apply list_lookup_middle).
    assert (alter trim h (push h (mkMessage user msg)
              (heap st ++ [[system_message p]])) !! h
            = Some (trim ([system_message p] ++ [mkMessage user msg]))) as Hl.
    { by rewrite list_lookup_alter_eq, lookup_push, decide_True, Hh. }
    exists h. eexists. rewrite Hl. simpl. split_and!; try done; simpl; [|by right].
    intros l' Hne. rewrite list_lookup_alter_ne by done.
    rewrite lookup_push, decide_False by done.
    destruct (decide (l' < h)%nat) as [Hlt|Hge].
    + by rewrite lookup_app_l.
    + rewrite !lookup_ge_None_2; [done|lia|].
      rewrite length_app. simpl. fold h. lia.
Qed.

(** ** The two halves of the chat handler *)

Lemma chat_start_cases (i : Impl) (st : State) (now : Z) (req : ChatBody) :
  let sid := session_of (chat_sessionId req) in
  (truthy (message req) = false /\
   chat_start i st now req =
     (Done (mkResponse 400 (error_body "Message is required")), st)) \/
  (truthy (message req) = true /\ now - last_request st sid < 1000 /\
   chat_start i st now req =
     (Done (mkResponse 429
        (error_body (limit_text i (now - last_request st sid)))), st)) \/
  (truthy (message req) = true /\ 1000 <= now - last_request st sid /\
   chat_start i st now req =
     accept (SYSTEM_PROMPT i) sid now (message req) st).
Proof.
  intros sid.
  destruct i; unfold chat_start, ServerJs.chat_start, Part000.chat_start;
    fold sid; cbv zeta; unfold MIN_REQUEST_INTERVAL;
    (destruct (truthy (message req)); simpl; [right|by left]);
    (destruct (Z.ltb_spec (now - last_request st sid) 1000); [left|right];
     (split; [done|]); (split; [done|]); [done|]);
    unfold accept, ensure_history; simpl;
    by destruct (conversationHistories st !! sid).
Qed.

Lemma chat_resume_cases (i : Impl) (st : State) (h : loc) (up : Upstream)
    (iso : string) :
  (exists r, chat_resume i st h up iso = (r, st) /\ is_error r) \/
  (exists reply, truthy reply = true /\
     chat_resume i st h up iso =
       (res_json (reply_body reply iso),
        mkState (push h (mkMessage assistant reply) (heap st))
                (conversationHistories st) (requestTimes st))).
Proof.
  assert (forall m, is_error (mkResponse 500 (error_body m))) as E500.
  { intros m. split; [by eexists|simpl; lia]. }
  destruct i; simpl.
  - unfold ServerJs.chat_resume.
    destruct (ServerJs.extract_reply up) as [reply|m] eqn:E; [right|left; eauto].
    exists reply. split; [|done].
    unfold ServerJs.extract_reply in E.
    destruct up as [m|r]; [done|].
    destruct (up_ok r); simpl in E.
    + destruct (json_parse r) as [data|]; [|done]. simpl in E.
      destruct (completion data) as [c|]; [|done]. simpl in E.
      destruct (truthy c) eqn:Ec; simpl in E; by simplify_eq.
    + destruct (up_json r); [done|].
      by destruct (strict_prop v "error").
  - unfold Part000.chat_resume.
    destruct up as [m|r]; [left; eauto|].
    destruct (up_ok r) eqn:Eok; simpl.
    + destruct (Part000.extract_reply r) as [reply|m] eqn:E; [right|left; eauto].
      exists reply. split; [|done].
      unfold Part000.extract_reply in E.
      destruct (json_parse r) as [data|]; [|done]. simpl in E.
      destruct (completion data) as [c|]; [|done]. simpl in E.
      simplify_eq. unfold js_or. by destruct (truthy c) eqn:Ec.
    + left. eexists. split; [done|]. split; [by eexists|]. simpl.
      unfold up_ok in Eok. lia.
Qed.

(** ** The reaper and the clear operation on single sessions *)

Lemma reaper_same (i : Impl) : reaper i = ServerJs.reaper.
Proof. by destruct i. Qed.

Lemma clear_same (i : Impl) : clear i = ServerJs.clear.
Proof. by destruct i. Qed.

Lemma reaper_spec (i : Impl) (st : State) (now : Z) :
  heap (reaper i st now) = heap st /\
  forall sid,
    conversationHistories (reaper i st now) !! sid =
      (if expired (now - 3600000) (requestTimes st) sid then None
       else conversationHistories st !! sid) /\
    requestTimes (reaper i st now) !! sid =
      (if expired (now - 3600000) (requestTimes st) sid then None
       else requestTimes st !! sid).
Proof.
  rewrite reaper_same. unfold ServerJs.reaper. simpl.
  set (cutoff := now - 3600000).
  apply (map_fold_weak_ind (fun r m =>
    heap r = heap st /\
    forall sid,
      conversationHistories r !! sid =
        (if expired cutoff m sid then None else conversationHistories st !! sid) /\
      requestTimes r !! sid =
        (if expired cutoff m sid then None else requestTimes st !! sid))).
  - split; [done|]. intros sid. unfold expired. by rewrite lookup_empty.
  - intros id t m r Hid [Hh IH]. unfold expired in *.
    destruct (t <? cutoff) eqn:Et; simpl.
    + split; [done|]. intros sid. destruct (decide (id = sid)) as [->|Hne].
      * by rewrite lookup_insert_eq, Et, !lookup_delete_eq.
      * rewrite lookup_insert_ne, !lookup_delete_ne by done. apply IH.
    + split; [done|]. intros sid. destruct (decide (id = sid)) as [->|Hne].
      * rewrite lookup_insert_eq, Et. specialize (IH sid). by rewrite Hid in IH.
      * rewrite lookup_insert_ne by done. apply IH.
Qed.

(** ** The state invariant *)

Lemma prior_head (p : string) (st : State) (sid : string) :
  heads p st -> prior p st sid !! 0%nat = Some (system_message p).
Proof.
  intros Hh. unfold prior, transcript.
  destruct (conversationHistories st !! sid) as [l|]; simpl; [|done].
  destruct (heap st !! l) as [arr|] eqn:E; simpl; [|done]. by eapply Hh.
Qed.

Lemma wf_init (p : string) : wf p init.
Proof.
  unfold wf, valid, separate, heads, covered, init. simpl.
  split_and!; intros *; try rewrite lookup_empty; try done.
Qed.

Lemma wf_accept (p sid : string) (now : Z) (msg : jsval) (st : State) :
  wf p st -> wf p (accept p sid now msg st).2.
Proof.
  intros (Hv & Hs & Hh & Hc).
  destruct (accept_spec p sid now msg st Hv)
    as (h & st' & Heq & Hch & Hrt & Hl & Hother & Hcase).
  rewrite Heq. simpl. split_and!.
  - intros sid' l. rewrite Hch. intros [[-> <-]|[Hne E]]%lookup_insert_Some.
    + by eexists.
    + destruct (decide (l = h)) as [->|Hlh]; [by eexists|].
      rewrite Hother by done. by eapply Hv.
  - assert (forall s, s <> sid -> conversationHistories st !! s = Some h -> False)
      as Hfresh.
    { intros s Hne E. destruct Hcase as [E'|[_ ->]].
      - apply Hne. by eapply Hs.
      - apply Hv in E as [? E%lookup_lt_Some]. lia. }
    intros s1 s2 l. rewrite Hch.
    intros [[<- <-]|[Hne1 E1]]%lookup_insert_Some
           [[<- El]|[Hne2 E2]]%lookup_insert_Some; subst; try done.
    + by destruct (Hfresh s2).
    + by destruct (Hfresh s1).
    + by eapply Hs.
  - intros l arr. destruct (decide (l = h)) as [->|Hlh].
    + rewrite Hl. intros [= <-]. apply trim_head.
      rewrite lookup_app_l_Some with (x := system_message p); [done|].
      by apply prior_head.
    + rewrite Hother by done. apply Hh.
  - intros s. rewrite Hch, Hrt. destruct (decide (sid = s)) as [->|Hne].
    + by rewrite !lookup_insert_eq.
    + rewrite !lookup_insert_ne by done. apply Hc.
Qed.

Lemma wf_push (p : string) (st : State) (h : loc) (m : Message) :
  wf p st ->
  wf p (mkState (push h m (heap st))
                (conversationHistories st) (requestTimes st)).
Proof.
  intros (Hv & Hs & Hh & Hc). split_and!; [| done | | done].
  - intros sid l E. simpl in *. rewrite lookup_push.
    destruct (Hv _ _ E) as [arr ->]. by case_decide.
  - intros l arr. simpl. rewrite lookup_push. case_decide; [|apply Hh].
    destruct (heap st !! l) as [arr0|] eqn:E; [|done]. intros [= <-].
    apply lookup_app_l_Some. by eapply Hh.
Qed.

Lemma wf_resume (i : Impl) (st : State) (h : loc) (up : Upstream)
    (iso : string) :
  wf (SYSTEM_PROMPT i) st ->
  wf (SYSTEM_PROMPT i) (chat_resume i st h up iso).2.
Proof.
  intros Hwf.
  destruct (chat_resume_cases i st h up iso)
    as [(r & -> & _)|(reply & _ & ->)]; [done|]. by apply wf_push.
Qed.

Lemma wf_start (i : Impl) (st : State) (now : Z) (req : ChatBody) :
  wf (SYSTEM_PROMPT i) st ->
  wf (SYSTEM_PROMPT i) (chat_start i st now req).2.
Proof.
  intros Hwf.
  destruct (chat_start_cases i st now req)
    as [[_ ->]|[(_ & _ & ->)|(_ & _ & ->)]]; [done|done|].
  by apply wf_accept.
Qed.

Lemma wf_clear (p : string) (i : Impl) (st : State) (req : ClearBody) :
  wf p st -> wf p (clear i st req).2.
Proof.
  intros (Hv & Hs & Hh & Hc). rewrite clear_same. unfold ServerJs.clear.
  simpl. split_and!.
  - intros sid l. simpl. intros [_ E]%lookup_delete_Some. by eapply Hv.
  - intros s1 s2 l. simpl.
    intros [_ E1]%lookup_delete_Some [_ E2]%lookup_delete_Some.
    by eapply Hs.
  - done.
  - intros sid. simpl. intros [l [Hne E]%lookup_delete_Some].
    rewrite lookup_delete_ne by done. by apply Hc.
Qed.

Lemma wf_reaper (p : string) (i : Impl) (st : State) (now : Z) :
  wf p st -> wf p (reaper i st now).
Proof.
  intros (Hv & Hs & Hh & Hc).
  destruct (reaper_spec i st now) as [Hheap Hlook].
  assert (forall sid l, conversationHistories (reaper i st now) !! sid = Some l ->
            conversationHistories st !! sid = Some l) as Hsub.
  { intros sid l. rewrite (proj1 (Hlook sid)). by case_match. }
  split_and!.
  - intros sid l E%Hsub. rewrite Hheap. by eapply Hv.
  - intros s1 s2 l E1%Hsub E2%Hsub. by eapply Hs.
  - intros l arr. rewrite Hheap. apply Hh.
  - intros sid. destruct (Hlook sid) as [-> ->].
    case_match; [by intros [? ?]|apply Hc].
Qed.

Lemma wf_step (i : Impl) (s s' : Sys) :
  step i s s' ->
  wf (SYSTEM_PROMPT i) (sys_state s) -> wf (SYSTEM_PROMPT i) (sys_state s').
Proof.
  intros Hstep Hwf. destruct Hstep as
    [st fl now req r st' E|st fl now req h sent st' E
    |st fl1 h fl2 up iso r st' E|st fl req|st fl now]; simpl in *.
  - apply (wf_start i st now req) in Hwf. by rewrite E in Hwf.
  - apply (wf_start i st now req) in Hwf. by rewrite E in Hwf.
  - apply (wf_resume i st h up iso) in Hwf. by rewrite E in Hwf.
  - by apply wf_clear.
  - by apply wf_reaper.
Qed.

Lemma reachable_wf (i : Impl) (s : Sys) :
  reachable i s -> wf (SYSTEM_PROMPT i) (sys_state s).
Proof.
  unfold reachable.
  apply (rtc_ind_r (fun s => wf (SYSTEM_PROMPT i) (sys_state s))).
  - apply wf_init.
  - intros s1 s2 _ Hstep IH. by eapply wf_step.
Qed.

(** ** Runs of events that do not overlap *)

Lemma chat_unfold (i : Impl) (st : State) (now : Z) (req : ChatBody)
    (up : Upstream) (iso : string) :
  chat i st now req up iso =
    match chat_start i st now req with
    | (Done r, st') => (r, st')
    | (Await h _, st') => chat_resume i st' h up iso
    end.
Proof. done. Qed.

Lemma handle_state (i : Impl) (st : State) (ev : Event) :
  (handle i st ev).2 =
    match ev with
    | EChat now req up iso => (chat i st now req up iso).2
    | EClear req => (clear i st req).2
    | EReap now => reaper i st now
    | _ => st
    end.
Proof.
  destruct ev; simpl; try done.
  - by destruct (chat _ _ _ _ _ _).
  - by destruct (clear _ _ _).
Qed.

Lemma wf_chat (i : Impl) (st : State) (now : Z) (req : ChatBody)
    (up : Upstream) (iso : string) :
  wf (SYSTEM_PROMPT i) st -> wf (SYSTEM_PROMPT i) (chat i st now req up iso).2.
Proof.
  intros Hwf. rewrite chat_unfold.
  pose proof (wf_start i st now req Hwf) as H.
  destruct (chat_start i st now req) as [[r|h sent] st']; [done|].
  by apply wf_resume.
Qed.

Lemma wf_handle (i : Impl) (st : State) (ev : Event) :
  wf (SYSTEM_PROMPT i) st -> wf (SYSTEM_PROMPT i) (handle i st ev).2.
Proof.
  intros Hwf. rewrite handle_state. destruct ev; try done.
  - by apply wf_chat.
  - by apply wf_clear.
  - by apply wf_reaper.
Qed.

Lemma wf_run (i : Impl) (evs : list Event) (st : State) :
  wf (SYSTEM_PROMPT i) st -> wf (SYSTEM_PROMPT i) (run i evs st).
Proof.
  revert st. induction evs as [|ev evs IH]; intros st Hwf; [done|].
  apply IH. by apply wf_handle.
Qed.

Lemma bounded_chat (i : Impl) (st : State) (now : Z) (req : ChatBody)
    (up : Upstream) (iso : string) :
  valid st -> bounded 22 st -> bounded 22 (chat i st now req up iso).2.
Proof.
  intros Hv Hb. rewrite chat_unfold.
  destruct (chat_start_cases i st now req)
    as [[_ ->]|[(_ & _ & ->)|(_ & _ & ->)]]; [done|done|].
  destruct (accept_spec (SYSTEM_PROMPT i) (session_of (chat_sessionId req))
              now (message req) st Hv)
    as (h & st' & Heq & _ & _ & Hl & Hother & _).
  rewrite Heq.
  assert (bounded 22 st') as Hb'.
  { intros l arr. destruct (decide (l = h)) as [->|Hne].
    - rewrite Hl. intros [= <-]. pose proof (length_trim
        (prior (SYSTEM_PROMPT i) st (session_of (chat_sessionId req)) ++
         [mkMessage user (message req)])). lia.
    - rewrite Hother by done. apply Hb. }
  destruct (chat_resume_cases i st' h up iso)
    as [(r & -> & _)|(reply & _ & ->)]; [done|].
  intros l arr. simpl. rewrite lookup_push. case_decide as E; [|apply Hb'].
  subst l. rewrite Hl. simpl. intros [= <-].
  rewrite length_app. simpl.
  pose proof (length_trim
    (prior (SYSTEM_PROMPT i) st (session_of (chat_sessionId req)) ++
     [mkMessage user (message req)])). lia.
Qed.

Lemma bounded_handle (i : Impl) (st : State) (ev : Event) :
  valid st -> bounded 22 st -> bounded 22 (handle i st ev).2.
Proof.
  intros Hv Hb. rewrite handle_state. destruct ev; try done.
  - by apply bounded_chat.
  - by rewrite clear_same.
  - intros l arr. rewrite (proj1 (reaper_spec i st now)). exact (Hb l arr).
Qed.

Lemma bounded_run (i : Impl) (evs : list Event) (st : State) :
  wf (SYSTEM_PROMPT i) st -> bounded 22 st -> bounded 22 (run i evs st).
Proof.
  revert st. induction evs as [|ev evs IH]; intros st Hwf Hb; [done|].
  apply IH; [by apply wf_handle|]. apply bounded_handle; [apply Hwf|done].
Qed.

Lemma bounded_init (n : nat) : bounded n init.
Proof. intros l arr. unfold init. simpl. by rewrite lookup_nil. Qed.

(** A run of whole events is a run of the event loop. *)
Lemma run_steps (i : Impl) (evs : list Event) (st : State) :
  rtc (step i) (mkSys st []) (mkSys (run i evs st) []).
Proof.
  revert st. induction evs as [|ev evs IH]; intros st; [done|].
  change (run i (ev :: evs) st) with (run i evs (handle i st ev).2).
  etrans; [|apply IH]. rewrite handle_state. destruct ev; try done.
  - rewrite chat_unfold.
    destruct (chat_start i st now req) as [[r|h sent] st'] eqn:E.
    + apply rtc_once. by eapply step_answer.
    + eapply rtc_l; [by eapply step_await|].
      apply rtc_once.
      destruct (chat_resume i st' h up iso) as [r st''] eqn:E'.
      by apply (step_resume i st' [] h [] up iso r st'').
  - apply rtc_once. apply step_clear.
  - apply rtc_once. apply step_reap.
Qed.

(** ** Facts about single handlers *)

Lemma accept_times (p sid : string) (now : Z) (msg : jsval) (st : State) :
  requestTimes (accept p sid now msg st).2 = <[sid := now]> (requestTimes st).
Proof.
  unfold accept, ensure_history. simpl.
  by destruct (conversationHistories st !! sid).
Qed.

Lemma accept_awaits (p sid : string) (now : Z) (msg : jsval) (st : State) :
  exists h sent st', accept p sid now msg st = (Await h sent, st').
Proof.
  unfold accept. destruct (ensure_history _ _ _) as [h st2]. by eauto.
Qed.

Lemma resume_maps (i : Impl) (st : State) (h : loc) (up : Upstream)
    (iso : string) :
  conversationHistories (chat_resume i st h up iso).2 = conversationHistories st
  /\ requestTimes (chat_resume i st h up iso).2 = requestTimes st.
Proof.
  by destruct (chat_resume_cases i st h up iso)
    as [(r & -> & _)|(reply & _ & ->)].
Qed.

Lemma truthy_text (s : string) : s <> "" -> truthy (JStr s) = true.
Proof. intros H. simpl. by apply negb_true_iff, String.eqb_neq. Qed.

Lemma last_request_stored (st : State) (sid : string) (t : Z) :
  requestTimes st !! sid = Some t -> last_request st sid = t.
Proof. unfold last_request. by intros ->. Qed.

Lemma transcript_at (st : State) (sid : string) (h : loc)
    (arr : list Message) :
  conversationHistories st !! sid = Some h -> heap st !! h = Some arr ->
  transcript st sid = Some arr.
Proof. unfold transcript. intros -> E. by simpl. Qed.

Lemma is_error_500 (m : string) : is_error (mkResponse 500 (error_body m)).
Proof. split; [by eexists|simpl; lia]. Qed.

(** The state in which an accepted request suspends. *)
Lemma start_await_spec (i : Impl) (st : State) (now : Z) (req : ChatBody)
    (h : loc) (sent : list Message) (st1 : State) :
  valid st ->
  chat_start i st now req = (Await h sent, st1) ->
  let sid := session_of (chat_sessionId req) in
  sent = trim (prior (SYSTEM_PROMPT i) st sid ++ [mkMessage user (message req)])
  /\ conversationHistories st1 !! sid = Some h
  /\ heap st1 !! h = Some sent
  /\ transcript st1 sid = Some sent.
Proof.
  intros Hv E sid.
  destruct (chat_start_cases i st now req)
    as [[_ H]|[(_ & _ & H)|(_ & _ & H)]]; rewrite H in E; [done..|].
  destruct (accept_spec (SYSTEM_PROMPT i) sid now (message req) st Hv)
    as (h' & st' & Heq & Hch & _ & Hl & _ & _).
  fold sid in E. rewrite Heq in E. simplify_eq.
  assert (conversationHistories st1 !! sid = Some h) as Hh
    by (by rewrite Hch, lookup_insert_eq).
  split_and!; try done. by eapply transcript_at.
Qed.

(** The rate check on a session with a stored time. *)
Lemma rate_limit_answer (i : Impl) (st : State) (now t : Z) (req : ChatBody) :
  truthy (message req) = true ->
  requestTimes st !! session_of (chat_sessionId req) = Some t ->
  now - t < 1000 ->
  chat_start i st now req =
    (Done (mkResponse 429 (error_body (limit_text i (now - t)))), st) /\
  forall up iso,
    chat i st now req up iso =
      (mkResponse 429 (error_body (limit_text i (now - t))), st).
Proof.
  intros T Ht Hlt. apply last_request_stored in Ht.
  assert (chat_start i st now req =
    (Done (mkResponse 429 (error_body (limit_text i (now - t)))), st)) as E.
  { destruct (chat_start_cases i st now req) as [[F _]|[(_ & H & E)|(_ & H & E)]].
    - congruence.
    - by rewrite Ht in E.
    - rewrite Ht in H. lia. }
  split; [done|]. intros up iso. by rewrite chat_unfold, E.
Qed.

(** ** The two files side by side *)

Lemma skeleton_inv (st1 st2 : State) :
  skeleton st1 = skeleton st2 ->
  (fmap (M:=list) blank <$> heap st1) = (fmap (M:=list) blank <$> heap st2) /\
  conversationHistories st1 = conversationHistories st2 /\
  requestTimes st1 = requestTimes st2.
Proof. unfold skeleton. by intros [= ? ? ?]. Qed.

Lemma blank_push (h : loc) (m : Message) (hp : list (list Message)) :
  fmap (M:=list) blank <$> push h m hp = push h (blank m) (fmap (M:=list) blank <$> hp).
Proof.
  unfold push. apply list_fmap_alter, Forall_forall. intros arr _.
  apply fmap_snoc.
Qed.

Lemma blank_trim (h : loc) (hp : list (list Message)) :
  fmap (M:=list) blank <$> alter trim h hp = alter trim h (fmap (M:=list) blank <$> hp).
Proof.
  apply list_fmap_alter, Forall_forall. intros arr _. apply trim_blank.
Qed.

(** Accepting the same request in states that are equal up to the text of
    the system messages leads to such states again, whatever the prompts. *)
Lemma accept_skeleton (p1 p2 sid : string) (now : Z) (msg : jsval)
    (st1 st2 : State) :
  skeleton st1 = skeleton st2 ->
  exists h sent1 sent2 st1' st2',
    accept p1 sid now msg st1 = (Await h sent1, st1') /\
    accept p2 sid now msg st2 = (Await h sent2, st2') /\
    skeleton st1' = skeleton st2'.
Proof.
  intros (Hh & Hc & Hr)%skeleton_inv.
  unfold accept, ensure_history. simpl. rewrite <- Hc, <- Hr.
  destruct (conversationHistories st1 !! sid) as [l|]; simpl.
  - do 5 eexists. split_and!; [done..|].
    unfold skeleton. simpl. by rewrite !blank_trim, !blank_push, Hh.
  - assert (length (heap st1) = length (heap st2)) as Hlen.
    { by rewrite <- (length_fmap (fmap blank) (heap st1)), Hh, length_fmap. }
    rewrite <- Hlen. do 5 eexists. split_and!; [done..|].
    unfold skeleton. simpl.
    by rewrite !blank_trim, !blank_push, !fmap_app, Hh.
Qed.

(** After the [await] the answer does not depend on the state, and states
    equal up to the system texts stay so. *)
Lemma resume_skeleton (i : Impl) (st1 st2 : State) (h : loc) (up : Upstream)
    (iso : string) :
  skeleton st1 = skeleton st2 ->
  (chat_resume i st1 h up iso).1 = (chat_resume i st2 h up iso).1 /\
  skeleton (chat_resume i st1 h up iso).2
  = skeleton (chat_resume i st2 h up iso).2.
Proof.
  intros Hsk. pose proof Hsk as (Hh & Hc & Hr)%skeleton_inv.
  destruct i; simpl.
  - unfold ServerJs.chat_resume. destruct (ServerJs.extract_reply up); [|done].
    split; [done|]. unfold skeleton. simpl. by rewrite !blank_push, Hh, Hc, Hr.
  - unfold Part000.chat_resume. destruct up as [m|r]; [done|].
    destruct (up_ok r); simpl; [|done].
    destruct (Part000.extract_reply r); [|done].
    split; [done|]. unfold skeleton. simpl. by rewrite !blank_push, Hh, Hc, Hr.
Qed.

(** On an agreeing upstream the two continuations are the same function. *)
Lemma resume_agree (st : State) (h : loc) (up : Upstream) (iso : string) :
  agreeing up ->
  chat_resume server_js st h up iso = chat_resume part_000 st h up iso.
Proof.
  simpl. unfold ServerJs.chat_resume, ServerJs.extract_reply,
    Part000.chat_resume, Part000.extract_reply.
  destruct up as [m|r]; [done|]. intros [Hok Hc]. rewrite Hok. simpl.
  unfold completion_of in Hc.
  destruct (json_parse r) as [data|m]; simpl in *; [|done].
  destruct (completion data) as [c|m]; simpl in *; [|done].
  unfold js_or. by rewrite (Hc c eq_refl).
Qed.

Lemma resume_not_ok (i : Impl) (st : State) (h : loc) (r : UpResponse)
    (iso : string) :
  up_ok r = false ->
  (chat_resume i st h (Responded r) iso).2 = st /\
  exists msg, body (chat_resume i st h (Responded r) iso).1 = error_body msg.
Proof.
  intros Hok. destruct i; simpl.
  - unfold ServerJs.chat_resume, ServerJs.extract_reply. rewrite Hok. simpl.
    destruct (up_json r) as [e|errorData]; [by eauto|].
    destruct (strict_prop errorData "error"); simpl; by eauto.
  - unfold Part000.chat_resume. rewrite Hok. simpl. by eauto.
Qed.

(** The synchronous halves of the two handlers, run on states equal up to
    the system texts: both answer at once, with the same status and the
    same fields, or both suspend holding the same array. *)
Lemma start_pair (stA stB : State) (now : Z) (req : ChatBody) :
  skeleton stA = skeleton stB ->
  (exists rA rB,
     chat_start server_js stA now req = (Done rA, stA) /\
     chat_start part_000 stB now req = (Done rB, stB) /\
     status rA = status rB /\ shape (body rA) = shape (body rB) /\
     (status rA <> 429 -> rA = rB)) \/
  (exists h sentA sentB stA' stB',
     chat_start server_js stA now req = (Await h sentA, stA') /\
     chat_start part_000 stB now req = (Await h sentB, stB') /\
     skeleton stA' = skeleton stB').
Proof.
  intros Hsk. pose proof Hsk as (_ & _ & Hr)%skeleton_inv.
  set (sid := session_of (chat_sessionId req)).
  assert (last_request stA sid = last_request stB sid) as Hlast
    by (unfold last_request; by rewrite Hr).
  pose proof (chat_start_cases server_js stA now req) as CA.
  pose proof (chat_start_cases part_000 stB now req) as CB.
  cbv zeta in CA, CB. fold sid in CA, CB.
  destruct CA as [[TA EA]|[(TA & HA & EA)|(TA & HA & EA)]];
  destruct CB as [[TB EB]|[(TB & HB & EB)|(TB & HB & EB)]];
    try congruence; try lia.
  - left. by eauto 10.
  - left. do 2 eexists. split_and!; [done|done|done|done|]. by simpl.
  - right.
    destruct (accept_skeleton ServerJs.SYSTEM_PROMPT Part000.SYSTEM_PROMPT
                sid now (message req) stA stB Hsk)
      as (h & s1 & s2 & st1' & st2' & E1 & E2 & Hsk').
    exists h, s1, s2, st1', st2'. rewrite EA, EB.
    exact (conj E1 (conj E2 Hsk')).
Qed.

(** Two requests of one session in flight at once: both trim before their
    [await], both push their reply after it, and the array holds 23. *)
Lemma overlapping_chats_hold_23 :
  exists s arr,
    reachable server_js s /\
    transcript (sys_state s) "default" = Some arr /\ length arr = 23%nat.
Proof.
  eexists (mkSys _ _), _. split_and!.
  - unfold reachable. etrans; [apply (run_steps server_js (chats 10) init)|].
    eapply rtc_l.
    { eapply (step_await server_js _ _ 30000 (mkChatBody (JStr "a") None)).
      vm_compute. reflexivity. }
    eapply rtc_l.
    { eapply (step_await server_js _ _ 32000 (mkChatBody (JStr "b") None)).
      vm_compute. reflexivity. }
    eapply rtc_l.
    { eapply (step_resume server_js _ [] 0%nat [0%nat] (stub_ok "x") "").
      vm_compute. reflexivity. }
    eapply rtc_once.
    eapply (step_resume server_js _ [] 0%nat [] (stub_ok "y") "").
    vm_compute. reflexivity.
  - vm_compute. reflexivity.
  - reflexivity.
Qed.

(** * The claims *)

(** C9. A chat request whose message is missing or empty is answered with
    400 [{error: 'Message is required'}] and nothing else happens: the
    handler returns before its [await] and the state is the one it found.
    A request with a non-empty text passes the check: it goes on to the rate
    check, which answers 429 or accepts the request. *)
Theorem C9_message_required (i : Impl) (st : State) (now : Z) (req : ChatBody) :
  (message req = JUndefined \/ message req = JStr "" ->
   chat_start i st now req =
     (Done (mkResponse 400 (error_body "Message is required")), st)) /\
  (forall s, message req = JStr s -> s <> "" ->
   let sid := session_of (chat_sessionId req) in
   let elapsed := now - last_request st sid in
   (elapsed < 1000 /\
    chat_start i st now req =
      (Done (mkResponse 429 (error_body (limit_text i elapsed))), st)) \/
   (1000 <= elapsed /\
    chat_start i st now req =
      accept (SYSTEM_PROMPT i) sid now (message req) st)).
Proof.
  split.
  - intros H.
    destruct (chat_start_cases i st now req) as [[_ E]|[(T & _)|(T & _)]];
      [done|destruct H as [H|H]; rewrite H in T; done..].
  - intros s Hs Hne sid elapsed.
    pose proof (truthy_text s Hne) as T. rewrite <- Hs in T.
    destruct (chat_start_cases i st now req) as [[F _]|[(_ & H & E)|(_ & H & E)]];
      [congruence|by left|by right].
Qed.

Lemma C9_message_required_witness :
  chat_start server_js init 5000 (mkChatBody (JStr "") None) =
    (Done (mkResponse 400 (error_body "Message is required")), init).
Proof.
  apply (C9_message_required server_js init 5000 (mkChatBody (JStr "") None)).
  right. reflexivity.
Defined.

(** C2. A chat request with a message, arriving fewer than 1000 ms after
    the time stored for its session, is answered with 429 and an [error]
    body before the handler reaches its [await]; the state it leaves is the
    state it found, so neither the transcript nor the stored time changes. *)
Theorem C2_rate_limited (i : Impl) (st : State) (now t : Z) (req : ChatBody) :
  truthy (message req) = true ->
  requestTimes st !! session_of (chat_sessionId req) = Some t ->
  now - t < 1000 ->
  chat_start i st now req =
    (Done (mkResponse 429 (error_body (limit_text i (now - t)))), st) /\
  forall up iso,
    chat i st now req up iso =
      (mkResponse 429 (error_body (limit_text i (now - t))), st).
Proof. apply rate_limit_answer. Qed.

Lemma C2_rate_limited_witness :
  chat_start part_000 (mkState [] ∅ {["default" := 5000]}) 5999
    (mkChatBody (JStr "hi") None) =
  (Done (mkResponse 429 (error_body "Please wait 1s between messages.")),
   mkState [] ∅ {["default" := 5000]}).
Proof.
  apply (C2_rate_limited part_000 (mkState [] ∅ {["default" := 5000]}) 5999
           5000 (mkChatBody (JStr "hi") None)).
  - reflexivity.
  - vm_compute. reflexivity.
  - lia.
Defined.

(** C6. A request with a message that arrives at least 1000 ms after the
    time stored for its session (0 when none is stored) is accepted: the
    handler suspends at the upstream call with the arrival time stored for
    the session.  Every other request is answered at once, with 400 when
    the message is missing and 429 otherwise, and leaves the state alone, so
    the time is written on acceptance only; nothing after the [await]
    writes it.  So whatever the upstream does (also when it fails), a next
    request of the session within 1000 ms is answered 429. *)
Theorem C6_slot_taken_on_acceptance (i : Impl) (st : State) (now : Z)
    (req : ChatBody) :
  let sid := session_of (chat_sessionId req) in
  let elapsed := now - last_request st sid in
  (truthy (message req) = true -> 1000 <= elapsed ->
   exists h sent st1,
     chat_start i st now req = (Await h sent, st1) /\
     requestTimes st1 !! sid = Some now) /\
  (truthy (message req) = false \/ elapsed < 1000 ->
   exists r,
     chat_start i st now req = (Done r, st) /\
     r = (if truthy (message req)
          then mkResponse 429 (error_body (limit_text i elapsed))
          else mkResponse 400 (error_body "Message is required"))) /\
  (forall r st', chat_start i st now req = (Done r, st') ->
   st' = st /\ (truthy (message req) = false \/ elapsed < 1000)) /\
  (forall h sent st1, chat_start i st now req = (Await h sent, st1) ->
   truthy (message req) = true /\ 1000 <= elapsed /\
   requestTimes st1 = <[sid := now]> (requestTimes st) /\
   forall up iso,
     let st2 := (chat_resume i st1 h up iso).2 in
     requestTimes st2 = requestTimes st1 /\
     forall now' req',
       session_of (chat_sessionId req') = sid ->
       truthy (message req') = true -> now' - now < 1000 ->
       chat_start i st2 now' req' =
         (Done (mkResponse 429 (error_body (limit_text i (now' - now)))), st2)).
Proof.
  intros sid elapsed.
  pose proof (chat_start_cases i st now req) as C. cbv zeta in C.
  fold sid in C. fold elapsed in C.
  destruct (accept_awaits (SYSTEM_PROMPT i) sid now (message req) st)
    as (h0 & sent0 & st0 & E0).
  pose proof (accept_times (SYSTEM_PROMPT i) sid now (message req) st) as A0.
  rewrite E0 in A0. simpl in A0.
  split_and!.
  - intros T Hel. destruct C as [[F _]|[(_ & H & _)|(_ & _ & E)]];
      [congruence|lia|].
    exists h0, sent0, st0. rewrite E, E0. split; [done|].
    by rewrite A0, lookup_insert_eq.
  - intros Hrej. destruct C as [[F E]|[(T & H & E)|(T & H & E)]].
    + eexists. split; [done|]. by rewrite F.
    + eexists. split; [done|]. by rewrite T.
    + destruct Hrej; [congruence|lia].
  - intros r st' E. destruct C as [[F H]|[(T & Hlt & H)|(_ & _ & H)]];
      rewrite H in E.
    + simplify_eq. auto.
    + simplify_eq. auto.
    + congruence.
  - intros h sent st1 E.
    destruct C as [[_ H]|[(_ & _ & H)|(T & Hel & H)]]; rewrite H in E;
      [done..|].
    rewrite E0 in E. simplify_eq.
    split_and!; [done..|]. intros up iso st2.
    destruct (resume_maps i st1 h up iso) as [_ Hrt2]. fold st2 in Hrt2.
    split; [done|]. intros now' req' Hsid T' Hlt.
    apply rate_limit_answer; [done| |done].
    by rewrite Hsid, Hrt2, A0, lookup_insert_eq.
Qed.

Lemma C6_slot_taken_on_acceptance_witness :
  (exists h sent st1,
     chat_start server_js init 5000 (mkChatBody (JStr "hi") None)
       = (Await h sent, st1) /\
     requestTimes st1 !! "default" = Some 5000) /\
  (exists h sent st1,
     chat_start part_000 (mkState [] ∅ {["default" := 4000]}) 5000
       (mkChatBody (JStr "hi") None)
       = (Await h sent, st1) /\
     requestTimes st1 !! "default" = Some 5000).
Proof.
  split.
  - apply (C6_slot_taken_on_acceptance server_js init 5000
             (mkChatBody (JStr "hi") None)).
    + reflexivity.
    + vm_compute. discriminate.
  - apply (C6_slot_taken_on_acceptance part_000
             (mkState [] ∅ {["default" := 4000]}) 5000
             (mkChatBody (JStr "hi") None)).
    + reflexivity.
    + vm_compute. discriminate.
Defined.

(** C8. Clearing a session answers 200 [{message: 'Conversation cleared'}]
    and leaves the session with neither a transcript nor a stored time,
    whether or not it had them; the other sessions keep theirs; when the
    session had neither, the state does not change; clearing again changes
    nothing more. *)
Theorem C8_clear_session (i : Impl) (st : State) (req : ClearBody) :
  let sid := session_of (clear_sessionId req) in
  let st' := (clear i st req).2 in
  (clear i st req).1 =
    mkResponse 200 (JObj [("message", JStr "Conversation cleared")]) /\
  conversationHistories st' !! sid = None /\
  requestTimes st' !! sid = None /\
  transcript st' sid = None /\
  (forall s, s <> sid ->
     conversationHistories st' !! s = conversationHistories st !! s /\
     requestTimes st' !! s = requestTimes st !! s /\
     transcript st' s = transcript st s) /\
  (conversationHistories st !! sid = None -> requestTimes st !! sid = None ->
   st' = st) /\
  clear i st' req = clear i st req.
Proof.
  intros sid st'. subst st'. rewrite clear_same.
  unfold ServerJs.clear, transcript. fold sid. simpl.
  split_and!; try done.
  - apply lookup_delete_eq.
  - apply lookup_delete_eq.
  - by rewrite lookup_delete_eq.
  - intros s Hne. by rewrite !lookup_delete_ne.
  - intros H1 H2. rewrite !delete_id by done. by destruct st.
  - by rewrite !delete_delete_eq.
Qed.

Lemma C8_clear_session_witness :
  (clear server_js init (mkClearBody None)).2 = init.
Proof.
  apply (C8_clear_session server_js init (mkClearBody None)); reflexivity.
Defined.

(** C7. One run of the reaper at clock [now] removes the stored time and
    the transcript of exactly the sessions whose stored time is below
    [now - 3600000]; every other session keeps its stored time and its
    transcript, and no array is modified. *)
Theorem C7_reaper_exact (i : Impl) (st : State) (now : Z) (sid : string) :
  let cutoff := now - 3600000 in
  let st' := reaper i st now in
  ((exists t, requestTimes st !! sid = Some t /\ t < cutoff) ->
   requestTimes st' !! sid = None /\
   conversationHistories st' !! sid = None /\
   transcript st' sid = None) /\
  (~ (exists t, requestTimes st !! sid = Some t /\ t < cutoff) ->
   requestTimes st' !! sid = requestTimes st !! sid /\
   conversationHistories st' !! sid = conversationHistories st !! sid /\
   transcript st' sid = transcript st sid) /\
  heap st' = heap st.
Proof.
  intros cutoff st'. subst st'.
  destruct (reaper_spec i st now) as [Hheap Hlook].
  destruct (Hlook sid) as [Hc Hr]. fold cutoff in Hc, Hr.
  unfold transcript. rewrite Hheap, Hc, Hr. unfold expired.
  split_and!; [| |done].
  - intros (t & -> & Hlt). apply Z.ltb_lt in Hlt. by rewrite Hlt.
  - intros Hno. destruct (requestTimes st !! sid) as [t|] eqn:E; [|done].
    destruct (Z.ltb_spec t cutoff); [|done]. destruct Hno. by exists t.
Qed.

Lemma C7_reaper_exact_witness :
  requestTimes (reaper server_js (mkState [] ∅ {["idle" := 1000]}) 3700000)
    !! "idle" = None.
Proof.
  apply (C7_reaper_exact server_js (mkState [] ∅ {["idle" := 1000]}) 3700000
           "idle").
  exists 1000. split; [vm_compute; reflexivity|lia].
Defined.

(** C10. In every state the event loop can reach, with any number of chat
    handlers suspended at their upstream call, a session id with a
    transcript also has a stored time. *)
Theorem C10_transcript_has_time (i : Impl) (s : Sys) (sid : string) :
  reachable i s ->
  is_Some (conversationHistories (sys_state s) !! sid) ->
  is_Some (requestTimes (sys_state s) !! sid).
Proof. intros H. apply (reachable_wf i s H). Qed.

Lemma C10_transcript_has_time_witness :
  is_Some (requestTimes (run part_000 [say 5000 "hi"] init) !! "default").
Proof.
  apply (C10_transcript_has_time part_000
           (mkSys (run part_000 [say 5000 "hi"] init) [])).
  - apply run_steps.
  - exists 0%nat. vm_compute. reflexivity.
Defined.

(** C1, as the claim states it, fails: after eleven answered chats of one
    session the transcript has 22 elements, because the assistant reply is
    pushed after the trim. *)
Lemma C1_transcript_may_hold_22 :
  exists sid arr,
    transcript (run server_js eleven_chats init) sid = Some arr /\
    ~ (length arr <= 21)%nat.
Proof.
  exists "default". eexists. split; [vm_compute; reflexivity|]. simpl. lia.
Qed.

(** C1, amended.  After any sequence of requests and timer runs that do not
    overlap, every transcript has at most 22 elements and begins with the
    system message of the file.  When the next user message of the session
    is accepted, the array that is forwarded and stored is the old one with
    the message appended and the elements at indices 1 .. length - 21
    removed: it has at most 21 elements, keeps index 0 and keeps the others
    in their order. *)
Theorem C1_transcript_capped (i : Impl) (evs : list Event) (sid : string)
    (arr : list Message) :
  transcript (run i evs init) sid = Some arr ->
  (length arr <= 22)%nat /\
  arr !! 0%nat = Some (system_message (SYSTEM_PROMPT i)) /\
  forall now req h sent st',
    session_of (chat_sessionId req) = sid ->
    chat_start i (run i evs init) now req = (Await h sent, st') ->
    let grown := arr ++ [mkMessage user (message req)] in
    sent = take 1 grown ++ drop (1 + (length grown - 21)) grown /\
    transcript st' sid = Some sent /\
    (length sent <= 21)%nat /\
    sent !! 0%nat = Some (system_message (SYSTEM_PROMPT i)) /\
    sublist sent grown.
Proof.
  intros Harr. set (st := run i evs init) in *.
  assert (wf (SYSTEM_PROMPT i) st) as Hwf by apply wf_run, wf_init.
  assert (bounded 22 st) as Hb
    by (apply bounded_run; [apply wf_init|apply bounded_init]).
  destruct Hwf as (Hv & Hs & Hh & Hc).
  pose proof Harr as Harr'. unfold transcript in Harr'.
  destruct (conversationHistories st !! sid) as [l|] eqn:El; [|done].
  simpl in Harr'. split_and!; [by eapply Hb|by eapply Hh|].
  intros now req h sent st' Hsid E grown.
  destruct (chat_start_cases i st now req)
    as [[_ H]|[(_ & _ & H)|(_ & _ & H)]]; rewrite H in E; [done..|].
  destruct (accept_spec (SYSTEM_PROMPT i) (session_of (chat_sessionId req))
              now (message req) st Hv)
    as (h' & st1 & Heq & Hch & _ & Hl & _ & _).
  rewrite Heq in E. simplify_eq.
  unfold prior in *. rewrite Harr in *. simpl in *. fold grown in Hl |- *.
  split_and!.
  - apply trim_splice.
  - eapply transcript_at; [|done]. by rewrite Hch, lookup_insert_eq.
  - apply length_trim.
  - apply trim_head. apply lookup_app_l_Some. by eapply Hh.
  - apply trim_sublist.
Qed.

Lemma C1_transcript_capped_witness :
  (length [system_message ServerJs.SYSTEM_PROMPT; mkMessage user (JStr "hi");
           mkMessage assistant (JStr "hello")] <= 22)%nat.
Proof.
  apply (C1_transcript_capped server_js [say 5000 "hi"] "default").
  vm_compute. reflexivity.
Defined.

(** C4, as the claim states it, fails in the exported variant: to a 200
    answer whose payload has no completion text it replies 200 with a
    fallback text, and appends that text as an assistant message. *)
Lemma C4_fallback_reply_is_appended :
  let req := mkChatBody (JStr "hi") None in
  let r := mkUpResponse 200 "{}" (ParseOk (JObj [])) in
  let out := chat part_000 init 5000 req (Responded r) "" in
  completion_of r = Ok JUndefined /\
  status out.1 = 200 /\
  transcript out.2 "default" =
    Some [system_message Part000.SYSTEM_PROMPT; mkMessage user (JStr "hi");
          mkMessage assistant (JStr "No response from model.")].
Proof. split_and!; vm_compute; reflexivity. Qed.

(** C4, amended.  ([valid] holds in every reachable state, see
    [reachable_wf].)  An accepted request suspends with its user message as the
    last element of the session's transcript.  When the upstream then
    answers with a non-success status, both files answer the caller with an
    error and leave the state as it was at suspension: no assistant message,
    the user message still there.  When the upstream answers with success
    but no completion text, [server.js] does the same; the exported variant
    does so only if reading the payload throws, and otherwise answers 200
    with 'No response from model.' and appends it as the assistant
    message. *)
Theorem C4_upstream_failure (i : Impl) (st : State) (now : Z) (req : ChatBody)
    (h : loc) (sent : list Message) (st1 : State) (r : UpResponse)
    (iso : string) :
  valid st ->
  chat_start i st now req = (Await h sent, st1) ->
  let sid := session_of (chat_sessionId req) in
  let out := chat_resume i st1 h (Responded r) iso in
  let fallback := JStr "No response from model." in
  transcript st1 sid = Some sent /\
  last sent = Some (mkMessage user (message req)) /\
  (up_ok r = false -> is_error out.1 /\ out.2 = st1) /\
  (up_ok r = true ->
   (forall c, completion_of r = Ok c -> truthy c = false) ->
   match i with
   | server_js => is_error out.1 /\ out.2 = st1
   | part_000 =>
       (forall m, completion_of r = Throw m -> is_error out.1 /\ out.2 = st1) /\
       (forall c, completion_of r = Ok c ->
          out.1 = res_json (reply_body fallback iso) /\
          transcript out.2 sid = Some (sent ++ [mkMessage assistant fallback]))
   end).
Proof.
  intros Hv E sid out fallback.
  destruct (start_await_spec i st now req h sent st1 Hv E)
    as (Hsent & Hch & Hl & Htr). fold sid in Hsent, Hch, Htr.
  split_and!; [done|rewrite Hsent; apply trim_last| |].
  - intros Hok. subst out.
    destruct (chat_resume_cases i st1 h (Responded r) iso)
      as [(r' & -> & He)|(reply & _ & Hr)]; [done|].
    exfalso. destruct i; simpl in Hr.
    + unfold ServerJs.chat_resume, ServerJs.extract_reply in Hr.
      rewrite Hok in Hr. simpl in Hr.
      destruct (up_json r); [done|]. by destruct (strict_prop v "error").
    + unfold Part000.chat_resume in Hr. by rewrite Hok in Hr.
  - intros Hok Hnone. subst out. unfold completion_of in Hnone.
    destruct i; simpl.
    + unfold ServerJs.chat_resume, ServerJs.extract_reply. rewrite Hok. simpl.
      destruct (json_parse r) as [data|m]; simpl in *;
        [|auto using is_error_500].
      destruct (completion data) as [c|m]; simpl in *;
        [|auto using is_error_500].
      rewrite (Hnone c eq_refl). simpl. auto using is_error_500.
    + unfold Part000.chat_resume, Part000.extract_reply, completion_of.
      rewrite Hok. simpl.
      destruct (json_parse r) as [data|m]; simpl in *;
        [|by split; [auto using is_error_500|]].
      destruct (completion data) as [c|m]; simpl in *;
        [|by split; [auto using is_error_500|]].
      split; [done|]. intros c' [= <-]. unfold js_or.
      rewrite (Hnone c eq_refl). simpl. split; [done|].
      eapply transcript_at; [done|]. simpl.
      by rewrite lookup_push, decide_True, Hl.
Qed.

Lemma C4_upstream_failure_witness :
  (chat_resume server_js
     (chat_start server_js init 5000 (mkChatBody (JStr "hi") None)).2 0%nat
     (Responded (mkUpResponse 503 "busy" (ParseError "Unexpected token b")))
     "").2
  = (chat_start server_js init 5000 (mkChatBody (JStr "hi") None)).2.
Proof.
  refine (proj2 (proj1 (proj2 (proj2
    (C4_upstream_failure server_js init 5000 (mkChatBody (JStr "hi") None)
       0%nat _ _ (mkUpResponse 503 "busy" (ParseError "Unexpected token b"))
       "" _ _))) _)).
  - intros sid l. unfold init. simpl. by rewrite lookup_empty.
  - vm_compute. reflexivity.
  - reflexivity.
Defined.

(** C5, as the claim states it, fails in [server.js]: a 404 of the upstream
    reaches the caller as a 500. *)
Lemma C5_server_js_answers_500 :
  let r := mkUpResponse 404 "Not Found" (ParseError "Unexpected token N") in
  let out := chat server_js init 5000 (mkChatBody (JStr "hi") None)
               (Responded r) "" in
  up_ok r = false /\
  out.1 = mkResponse 500 (error_body "HTTP 404: Not Found") /\
  status out.1 <> up_status r.
Proof. split_and!; [vm_compute; reflexivity..|vm_compute; discriminate]. Qed.

(** C5, amended.  When the upstream answers with a non-success status, the
    exported variant answers the caller with that status and
    [{error: text}], the text being the upstream body.  [server.js] answers
    500 with [{error: message}]; the message is taken from the upstream
    error body, or is 'HTTP status: body' when that body is not JSON.  When
    the upstream call itself fails, both answer 500 with the failure's
    message.  None of these changes the state. *)
Theorem C5_error_status (i : Impl) (st : State) (h : loc) (r : UpResponse)
    (iso : string) :
  up_ok r = false ->
  let out := chat_resume i st h (Responded r) iso in
  out.2 = st /\
  match i with
  | part_000 => out.1 = mkResponse (up_status r) (error_body (up_text r))
  | server_js =>
      exists msg,
        ServerJs.extract_reply (Responded r) = Throw msg /\
        out.1 = mkResponse 500 (error_body msg) /\
        (forall e, up_json r = ParseError e ->
           msg = "HTTP " +:+ pretty (up_status r) +:+ ": " +:+ up_text r)
  end /\
  forall m, chat_resume i st h (Rejected m) iso = (mkResponse 500 (error_body m), st).
Proof.
  intros Hok out. subst out. split_and!.
  - destruct (chat_resume_cases i st h (Responded r) iso)
      as [(r' & -> & He)|(reply & _ & Hr)]; [done|].
    exfalso. destruct i; simpl in Hr.
    + unfold ServerJs.chat_resume, ServerJs.extract_reply in Hr.
      rewrite Hok in Hr. simpl in Hr.
      destruct (up_json r); [done|]. by destruct (strict_prop v "error").
    + unfold Part000.chat_resume in Hr. by rewrite Hok in Hr.
  - destruct i; simpl.
    + unfold ServerJs.chat_resume, ServerJs.extract_reply. rewrite Hok. simpl.
      destruct (up_json r) as [e|errorData]; [by eexists|].
      destruct (strict_prop errorData "error"); simpl; by eexists.
    + unfold Part000.chat_resume. by rewrite Hok.
  - intros m. by destruct i.
Qed.

Lemma C5_error_status_witness :
  (chat_resume part_000 init 0%nat
     (Responded (mkUpResponse 401 "denied" (ParseError "Unexpected token d")))
     "").1
  = mkResponse 401 (error_body "denied").
Proof.
  refine (proj1 (proj2 (C5_error_status part_000 init 0%nat
    (mkUpResponse 401 "denied" (ParseError "Unexpected token d")) "" _))).
  reflexivity.
Defined.

(** C3, as the claim states it, fails: on a non-success upstream answer the
    two files return different statuses; on a success answer without a
    completion text one returns an error and the other a reply, and only
    the other appends an assistant message; and the health bodies have
    different fields. *)
Lemma C3_variants_differ :
  let req := mkChatBody (JStr "hi") None in
  let not_found :=
    Responded (mkUpResponse 404 "Not Found" (ParseError "Unexpected token N")) in
  let empty := Responded (mkUpResponse 200 "{}" (ParseOk (JObj []))) in
  status (chat server_js init 5000 req not_found "").1
    <> status (chat part_000 init 5000 req not_found "").1 /\
  status (chat server_js init 5000 req empty "").1
    <> status (chat part_000 init 5000 req empty "").1 /\
  skeleton (chat server_js init 5000 req empty "").2
    <> skeleton (chat part_000 init 5000 req empty "").2 /\
  shape (body (health server_js None)) <> shape (body (health part_000 None)).
Proof. split_and!; vm_compute; discriminate. Qed.

(** C3, amended.  Run on states that are equal up to the text of the system
    messages (in particular on the same state), the two chat handlers
    return the same status and the same body fields and leave states that
    are again equal up to those texts, provided the upstream call fails or
    answers with success and a completion text; unless the answer is the
    429, whose wording differs, the two responses are equal.  On a
    non-success upstream answer they still return the same body fields and
    leave such states.  The clear handlers and the key test handlers are
    the same function.  The health handlers return the same status and the
    same values, under partly different field names. *)
Theorem C3_variants_agree (stA stB : State) (now : Z) (req : ChatBody)
    (up : Upstream) (iso : string) :
  skeleton stA = skeleton stB ->
  let a := chat server_js stA now req up iso in
  let b := chat part_000 stB now req up iso in
  (agreeing up ->
   status a.1 = status b.1 /\ shape (body a.1) = shape (body b.1) /\
   (status a.1 <> 429 -> a.1 = b.1) /\
   skeleton a.2 = skeleton b.2) /\
  (forall r, up = Responded r -> up_ok r = false ->
   shape (body a.1) = shape (body b.1) /\ skeleton a.2 = skeleton b.2) /\
  (forall creq,
     (clear server_js stA creq).1 = (clear part_000 stB creq).1 /\
     skeleton (clear server_js stA creq).2
     = skeleton (clear part_000 stB creq).2) /\
  (forall u, test_key server_js u = test_key part_000 u) /\
  (forall key,
     let ha := health server_js key in
     let hb := health part_000 key in
     status ha = status hb /\
     prop (body ha) "status" = prop (body hb) "status" /\
     prop (body ha) "model" = prop (body hb) "model" /\
     prop (body ha) "openrouterConfigured"
     = prop (body hb) "openrouterConfigured" /\
     prop (body ha) "apiKey" = prop (body hb) "apiKeyPrefix").
Proof.
  intros Hsk a b. subst a b. rewrite !chat_unfold.
  split_and!.
  - intros Hup.
    destruct (start_pair stA stB now req Hsk)
      as [(rA & rB & -> & -> & ? & ? & ?)
         |(h & sA & sB & stA' & stB' & -> & -> & Hsk')]; [done|].
    destruct (resume_skeleton server_js stA' stB' h up iso Hsk') as [H1 H2].
    rewrite <- (resume_agree stB' h up iso Hup). by rewrite H1, H2.
  - intros r -> Hok.
    destruct (start_pair stA stB now req Hsk)
      as [(rA & rB & -> & -> & ? & ? & ?)
         |(h & sA & sB & stA' & stB' & -> & -> & Hsk')]; [done|].
    destruct (resume_not_ok server_js stA' h r iso Hok) as [-> [mA ->]].
    destruct (resume_not_ok part_000 stB' h r iso Hok) as [-> [mB ->]].
    done.
  - intros creq. pose proof Hsk as (Hh & Hc & Hr)%skeleton_inv.
    split; [done|]. unfold skeleton. simpl. by rewrite Hh, Hc, Hr.
  - done.
  - done.
Qed.

Lemma C3_variants_agree_witness :
  status (chat server_js init 5000 (mkChatBody (JStr "hi") None)
            (stub_ok "hello") "").1
  = status (chat part_000 init 5000 (mkChatBody (JStr "hi") None)
              (stub_ok "hello") "").1.
Proof.
  refine (proj1 (proj1 (C3_variants_agree init init 5000
    (mkChatBody (JStr "hi") None) (stub_ok "hello") "" _) _)).
  - reflexivity.
  - split; [reflexivity|]. intros c [= <-]. reflexivity.
Defined.

(** * Further properties of the handlers *)

(** ** Invariants of the arrays, with requests in flight *)

Section HeapInvariant.

Variable i : Impl.
Variable P : list Message -> Prop.

Hypothesis P_new : P [system_message (SYSTEM_PROMPT i)].
Hypothesis P_user : forall arr msg,
  P arr -> truthy msg = true -> P (trim (arr ++ [mkMessage user msg])).
Hypothesis P_reply : forall arr reply,
  P arr -> truthy reply = true -> P (arr ++ [mkMessage assistant reply]).

Lemma heap_all_prior (st : State) (sid : string) :
  heap_all P st -> P (prior (SYSTEM_PROMPT i) st sid).
Proof.
  intros H. unfold prior, transcript.
  destruct (conversationHistories st !! sid) as [l|]; simpl; [|done].
  destruct (heap st !! l) as [arr|] eqn:E; simpl; [|done]. by eapply H.
Qed.

Lemma heap_all_start (st : State) (now : Z) (req : ChatBody) :
  valid st -> heap_all P st -> heap_all P (chat_start i st now req).2.
Proof.
  intros Hv H.
  destruct (chat_start_cases i st now req)
    as [[_ ->]|[(_ & _ & ->)|(T & _ & ->)]]; [done..|].
  destruct (accept_spec (SYSTEM_PROMPT i) (session_of (chat_sessionId req))
              now (message req) st Hv)
    as (h & st' & Heq & _ & _ & Hl & Hother & _).
  rewrite Heq. simpl. intros l arr. destruct (decide (l = h)) as [->|Hne].
  - rewrite Hl. intros [= <-]. apply P_user; [|done].
    by apply heap_all_prior.
  - rewrite Hother by done. apply H.
Qed.

Lemma heap_all_resume (st : State) (h : loc) (up : Upstream) (iso : string) :
  heap_all P st -> heap_all P (chat_resume i st h up iso).2.
Proof.
  intros H.
  destruct (chat_resume_cases i st h up iso)
    as [(r & -> & _)|(reply & T & ->)]; [done|].
  intros l arr. simpl. rewrite lookup_push. case_decide; [|apply H].
  destruct (heap st !! l) as [arr0|] eqn:E; [|done]. intros [= <-].
  apply P_reply; [|done]. by eapply H.
Qed.

Lemma heap_all_step (s s' : Sys) :
  step i s s' -> valid (sys_state s) ->
  heap_all P (sys_state s) -> heap_all P (sys_state s').
Proof.
  intros Hstep Hv H. destruct Hstep as
    [st fl now req r st' E|st fl now req h sent st' E
    |st fl1 h fl2 up iso r st' E|st fl req|st fl now]; simpl in *.
  - apply (heap_all_start st now req Hv) in H. by rewrite E in H.
  - apply (heap_all_start st now req Hv) in H. by rewrite E in H.
  - apply (heap_all_resume st h up iso) in H. by rewrite E in H.
  - by rewrite clear_same.
  - intros l arr. rewrite (proj1 (reaper_spec i st now)). apply H.
Qed.

Lemma reachable_heap_all (s : Sys) :
  reachable i s -> heap_all P (sys_state s).
Proof.
  intros Hreach.
  assert (wf (SYSTEM_PROMPT i) (sys_state s) /\ heap_all P (sys_state s))
    as [_ H]; [|done].
  revert s Hreach. unfold reachable.
  apply (rtc_ind_r (fun s => wf (SYSTEM_PROMPT i) (sys_state s) /\
                             heap_all P (sys_state s))).
  - split; [apply wf_init|]. intros l arr. unfold init. simpl.
    by rewrite lookup_nil.
  - intros s1 s2 _ Hstep [Hwf H]. split; [by eapply wf_step|].
    eapply heap_all_step; [done|apply Hwf|done].
Qed.

End HeapInvariant.

Lemma transcript_in_heap (P : list Message -> Prop) (st : State)
    (sid : string) (arr : list Message) :
  heap_all P st -> transcript st sid = Some arr -> P arr.
Proof.
  unfold transcript. intros H.
  destruct (conversationHistories st !! sid) as [l|]; simpl; [|done].
  apply H.
Qed.

Lemma dialogue_trim (p : string) (arr : list Message) :
  dialogue p arr -> dialogue p (trim arr).
Proof.
  intros [H0 Hrest]. split; [by apply trim_head|].
  rewrite trim_splice. unfold splice.
  destruct arr as [|m arr]; [done|]. simpl in *.
  rewrite drop_0. by apply Forall_drop.
Qed.

Lemma dialogue_snoc (p : string) (arr : list Message) (m : Message) :
  dialogue p arr -> role m <> system -> dialogue p (arr ++ [m]).
Proof.
  intros [H0 Hrest] Hm. split; [by apply lookup_app_l_Some|].
  destruct arr as [|x arr]; [done|]. simpl in *.
  rewrite drop_0 in *. apply Forall_app. by split; [|apply Forall_singleton].
Qed.

Lemma spoken_trim (arr : list Message) : spoken arr -> spoken (trim arr).
Proof.
  unfold spoken. intros H. rewrite trim_splice. unfold splice.
  apply Forall_app. split; [by apply Forall_take|by apply Forall_drop].
Qed.

(** X1. With any number of requests in flight, every transcript is the
    system message of the file followed by user and assistant messages
    only. *)
Theorem X1_transcript_is_dialogue (i : Impl) (s : Sys) (sid : string)
    (arr : list Message) :
  reachable i s -> transcript (sys_state s) sid = Some arr ->
  dialogue (SYSTEM_PROMPT i) arr.
Proof.
  intros Hr. apply transcript_in_heap.
  apply (reachable_heap_all i (dialogue (SYSTEM_PROMPT i))); [| | |done].
  - split; [done|]. simpl. constructor.
  - intros a msg Ha _. by apply dialogue_trim, dialogue_snoc.
  - intros a reply Ha _. by apply dialogue_snoc.
Qed.

Lemma X1_transcript_is_dialogue_witness :
  dialogue Part000.SYSTEM_PROMPT
    [system_message Part000.SYSTEM_PROMPT; mkMessage user (JStr "hi");
     mkMessage assistant (JStr "hello")].
Proof.
  apply (X1_transcript_is_dialogue part_000
           (mkSys (run part_000 [say 5000 "hi"] init) []) "default").
  - apply run_steps.
  - vm_compute. reflexivity.
Defined.

(** X2. With any number of requests in flight, no transcript holds a
    message whose content is empty (falsy): the user message passed the
    validation, and a reply is pushed only when it is a text ([server.js])
    or replaced by the fallback (the exported variant). *)
Theorem X2_no_empty_message (i : Impl) (s : Sys) (sid : string)
    (arr : list Message) (m : Message) :
  reachable i s -> transcript (sys_state s) sid = Some arr ->
  m ∈ arr -> truthy (content m) = true.
Proof.
  intros Hr Harr Hm.
  assert (spoken arr) as H; [|by eapply Forall_forall in H].
  revert Harr. apply transcript_in_heap.
  apply (reachable_heap_all i spoken); [| | |done].
  - apply Forall_singleton. by destruct i.
  - intros a msg Ha T. apply spoken_trim, Forall_app.
    by split; [|apply Forall_singleton].
  - intros a reply Ha T. apply Forall_app. by split; [|apply Forall_singleton].
Qed.

Lemma X2_no_empty_message_witness :
  truthy (content (mkMessage assistant (JStr "hello"))) = true.
Proof.
  apply (X2_no_empty_message server_js
           (mkSys (run server_js [say 5000 "hi"] init) []) "default"
           [system_message ServerJs.SYSTEM_PROMPT; mkMessage user (JStr "hi");
            mkMessage assistant (JStr "hello")]).
  - apply run_steps.
  - vm_compute. reflexivity.
  - apply list_elem_of_In. simpl. auto.
Defined.

(** ** What the upstream is sent *)

Lemma length_trim_min (arr : list Message) :
  length (trim arr) = Nat.min (length arr) 21.
Proof.
  unfold trim, splice. destruct (Nat.ltb_spec 21 (length arr)) as [H|H]; [|lia].
  rewrite length_app, length_take, length_drop. lia.
Qed.

Lemma accept_sent_bound (p sid : string) (now : Z) (msg : jsval) (st : State)
    (h : loc) (sent : list Message) (st' : State) :
  accept p sid now msg st = (Await h sent, st') -> (length sent <= 21)%nat.
Proof.
  unfold accept. destruct (ensure_history _ _ _) as [h0 st2].
  intros [= <- <- <-]. rewrite list_lookup_alter_eq.
  destruct (push h0 _ _ !! h0) as [arr|]; simpl; [apply length_trim|lia].
Qed.

(** X3. Whatever the state, also with other requests of the session in
    flight, the array a chat handler serialises into its upstream request
    has at most 21 messages.  In a reachable state it has at least 2, begins
    with the system message and ends with the user message of the
    request. *)
Theorem X3_forwarded_window (i : Impl) (st : State) (now : Z) (req : ChatBody)
    (h : loc) (sent : list Message) (st' : State) :
  chat_start i st now req = (Await h sent, st') ->
  (length sent <= 21)%nat /\
  (forall fl, reachable i (mkSys st fl) ->
     (2 <= length sent)%nat /\
     sent !! 0%nat = Some (system_message (SYSTEM_PROMPT i)) /\
     last sent = Some (mkMessage user (message req))).
Proof.
  intros E. split.
  - destruct (chat_start_cases i st now req)
      as [[_ H]|[(_ & _ & H)|(_ & _ & H)]]; rewrite H in E; [done..|].
    by eapply accept_sent_bound.
  - intros fl Hr. apply reachable_wf in Hr as (Hv & _ & Hh & _). simpl in *.
    destruct (start_await_spec i st now req h sent st' Hv E) as (-> & _).
    pose proof (prior_head (SYSTEM_PROMPT i) st
                  (session_of (chat_sessionId req)) Hh) as H0.
    split_and!.
    + rewrite length_trim_min, length_app. simpl.
      apply lookup_lt_Some in H0. lia.
    + by apply trim_head, lookup_app_l_Some.
    + apply trim_last.
Qed.

Lemma X3_forwarded_window_witness :
  (length [system_message ServerJs.SYSTEM_PROMPT; mkMessage user (JStr "hi")]
   <= 21)%nat.
Proof.
  refine (proj1 (X3_forwarded_window server_js init 5000
                   (mkChatBody (JStr "hi") None) 0%nat _ _ _)).
  vm_compute. reflexivity.
Defined.

(** ** The answered request *)

Lemma resume_success (i : Impl) (st : State) (h : loc) (up : Upstream)
    (iso : string) (c : jsval) :
  succeeds up c ->
  chat_resume i st h up iso =
    (res_json (reply_body c iso),
     mkState (push h (mkMessage assistant c) (heap st))
             (conversationHistories st) (requestTimes st)).
Proof.
  intros (r & -> & Hok & Hc & T). unfold completion_of in Hc.
  destruct i; simpl.
  - unfold ServerJs.chat_resume, ServerJs.extract_reply. rewrite Hok. simpl.
    destruct (json_parse r) as [data|]; simpl in *; [|done].
    rewrite Hc. simpl. by rewrite T.
  - unfold Part000.chat_resume, Part000.extract_reply. rewrite Hok. simpl.
    destruct (json_parse r) as [data|]; simpl in *; [|done].
    rewrite Hc. simpl. unfold js_or. by rewrite T.
Qed.

Lemma chat_answered (i : Impl) (st : State) (now : Z) (req : ChatBody)
    (up : Upstream) (iso : string) (c : jsval) :
  let sid := session_of (chat_sessionId req) in
  let sent := trim (prior (SYSTEM_PROMPT i) st sid ++
                    [mkMessage user (message req)]) in
  valid st -> truthy (message req) = true ->
  1000 <= now - last_request st sid -> succeeds up c ->
  exists st',
    chat i st now req up iso = (res_json (reply_body c iso), st') /\
    transcript st' sid = Some (sent ++ [mkMessage assistant c]) /\
    requestTimes st' = <[sid := now]> (requestTimes st) /\
    valid st'.
Proof.
  intros sid sent Hv T Hel Hup. rewrite chat_unfold.
  destruct (chat_start_cases i st now req)
    as [[F _]|[(_ & H & _)|(_ & _ & E)]]; [congruence|fold sid in H; lia|].
  fold sid in E. rewrite E.
  destruct (accept_spec (SYSTEM_PROMPT i) sid now (message req) st Hv)
    as (h & st1 & Heq & Hch & Hrt & Hl & Hother & _).
  fold sent in Heq, Hl. rewrite Heq, (resume_success i st1 h up iso c Hup).
  eexists. split_and!; [done| |done|].
  - eapply transcript_at; simpl; [by rewrite Hch, lookup_insert_eq|].
    by rewrite lookup_push, decide_True, Hl.
  - intros s l. simpl. rewrite Hch, lookup_push.
    intros [[-> <-]|[Hne Hs]]%lookup_insert_Some.
    + rewrite decide_True, Hl by done. by eexists.
    + case_decide; [subst; rewrite Hl; by eexists|].
      destruct (decide (l = h)) as [->|Hlh]; [done|].
      rewrite Hother by done. by eapply Hv.
Qed.

(** X4. A request with a message, at least 1000 ms after the stored time of
    its session, whose upstream call answers with success and a completion
    text, is answered 200 with that text as [reply]; afterwards the
    session's transcript is the trimmed one that was forwarded followed by
    the reply as assistant message, and the stored time is the arrival
    time. *)
Theorem X4_answered_chat (i : Impl) (st : State) (now : Z) (req : ChatBody)
    (up : Upstream) (iso : string) (c : jsval) :
  let sid := session_of (chat_sessionId req) in
  let sent := trim (prior (SYSTEM_PROMPT i) st sid ++
                    [mkMessage user (message req)]) in
  valid st -> truthy (message req) = true ->
  1000 <= now - last_request st sid -> succeeds up c ->
  (chat i st now req up iso).1 = res_json (reply_body c iso) /\
  transcript (chat i st now req up iso).2 sid
    = Some (sent ++ [mkMessage assistant c]) /\
  requestTimes (chat i st now req up iso).2 !! sid = Some now.
Proof.
  intros sid sent Hv T Hel Hup.
  destruct (chat_answered i st now req up iso c Hv T Hel Hup)
    as (st' & -> & Htr & Hrt & _). simpl.
  split_and!; [done|done|]. by rewrite Hrt, lookup_insert_eq.
Qed.

Lemma valid_init : valid init.
Proof. intros sid l. unfold init. simpl. by rewrite lookup_empty. Qed.

Lemma stub_succeeds (text : string) :
  text <> "" -> succeeds (stub_ok text) (JStr text).
Proof.
  intros H. eexists. split_and!; [done|done|done|by apply truthy_text].
Qed.

Lemma X4_answered_chat_witness :
  (chat part_000 init 5000 (mkChatBody (JStr "hi") None) (stub_ok "hello")
     "2026").1
  = res_json (reply_body (JStr "hello") "2026").
Proof.
  refine (proj1 (X4_answered_chat part_000 init 5000
                   (mkChatBody (JStr "hi") None) (stub_ok "hello") "2026"
                   (JStr "hello") _ _ _ _)).
  - apply valid_init.
  - reflexivity.
  - vm_compute. discriminate.
  - apply stub_succeeds. discriminate.
Defined.

(** X5. Two answered requests of a session that had no state, the first
    at a clock of at least 1000 and the second at least 1000 ms later, leave
    the transcript: system message, first user message, first reply, second
    user message, second reply. *)
Theorem X5_two_turns (i : Impl) (st : State) (sid : string) (now1 now2 : Z)
    (req1 req2 : ChatBody) (up1 up2 : Upstream) (iso1 iso2 : string)
    (c1 c2 : jsval) :
  valid st ->
  conversationHistories st !! sid = None -> requestTimes st !! sid = None ->
  session_of (chat_sessionId req1) = sid ->
  session_of (chat_sessionId req2) = sid ->
  truthy (message req1) = true -> truthy (message req2) = true ->
  1000 <= now1 -> 1000 <= now2 - now1 ->
  succeeds up1 c1 -> succeeds up2 c2 ->
  let st1 := (chat i st now1 req1 up1 iso1).2 in
  transcript (chat i st1 now2 req2 up2 iso2).2 sid =
    Some [system_message (SYSTEM_PROMPT i);
          mkMessage user (message req1); mkMessage assistant c1;
          mkMessage user (message req2); mkMessage assistant c2].
Proof.
  intros Hv Hch Hrt S1 S2 T1 T2 H1 H2 U1 U2 st1. subst st1.
  assert (1000 <= now1 - last_request st (session_of (chat_sessionId req1)))
    as Hel1.
  { unfold last_request. rewrite S1, Hrt. simpl. lia. }
  destruct (chat_answered i st now1 req1 up1 iso1 c1 Hv T1 Hel1 U1)
    as (st1 & E1 & Htr1 & Hrt1 & Hv1).
  rewrite E1. simpl. rewrite S1 in Htr1, Hrt1.
  assert (prior (SYSTEM_PROMPT i) st sid = [system_message (SYSTEM_PROMPT i)])
    as Hp by (unfold prior, transcript; by rewrite Hch).
  rewrite Hp in Htr1. simpl in Htr1.
  assert (1000 <= now2 - last_request st1 (session_of (chat_sessionId req2)))
    as Hel2.
  { unfold last_request. rewrite S2, Hrt1, lookup_insert_eq. simpl. lia. }
  destruct (chat_answered i st1 now2 req2 up2 iso2 c2 Hv1 T2 Hel2 U2)
    as (st2 & E2 & Htr2 & _).
  rewrite E2. simpl. rewrite S2 in Htr2. rewrite Htr2.
  unfold prior. by rewrite Htr1.
Qed.

Lemma X5_two_turns_witness :
  transcript
    (chat server_js
       (chat server_js init 5000 (mkChatBody (JStr "a") None)
          (stub_ok "b") "").2
       6000 (mkChatBody (JStr "c") None) (stub_ok "d") "").2 "default"
  = Some [system_message ServerJs.SYSTEM_PROMPT;
          mkMessage user (JStr "a"); mkMessage assistant (JStr "b");
          mkMessage user (JStr "c"); mkMessage assistant (JStr "d")].
Proof.
  apply (X5_two_turns server_js init "default" 5000 6000
           (mkChatBody (JStr "a") None) (mkChatBody (JStr "c") None)
           (stub_ok "b") (stub_ok "d") "" "" (JStr "b") (JStr "d")).
  - apply valid_init.
  - reflexivity.
  - reflexivity.
  - reflexivity.
  - reflexivity.
  - reflexivity.
  - reflexivity.
  - lia.
  - lia.
  - apply stub_succeeds. discriminate.
  - apply stub_succeeds. discriminate.
Defined.

(** ** Sessions do not interfere *)

Lemma accept_fresh (p sid : string) (now : Z) (msg : jsval) (st : State)
    (h : loc) (sent : list Message) (st' : State) (s : string) (l : loc) :
  valid st -> separate st ->
  accept p sid now msg st = (Await h sent, st') ->
  s <> sid -> conversationHistories st !! s = Some l -> l <> h.
Proof.
  intros Hv Hs E Hne Hl ->.
  destruct (accept_spec p sid now msg st Hv)
    as (h' & st1 & Heq & _ & _ & _ & _ & Hcase).
  rewrite Heq in E. simplify_eq. destruct Hcase as [E'|[_ ->]].
  - apply Hne. by eapply Hs.
  - apply Hv in Hl as [? Hl%lookup_lt_Some]. lia.
Qed.

(** X6. In a state of the invariant (every reachable state is one), a chat
    request, whatever its outcome, changes nothing of another session: not
    its entry in either map, not its transcript. *)
Theorem X6_other_sessions_untouched (i : Impl) (st : State) (now : Z)
    (req : ChatBody) (up : Upstream) (iso : string) (s : string) :
  wf (SYSTEM_PROMPT i) st ->
  s <> session_of (chat_sessionId req) ->
  let st' := (chat i st now req up iso).2 in
  conversationHistories st' !! s = conversationHistories st !! s /\
  requestTimes st' !! s = requestTimes st !! s /\
  transcript st' s = transcript st s.
Proof.
  intros (Hv & Hs & _) Hne st'. subst st'. rewrite chat_unfold.
  set (sid := session_of (chat_sessionId req)) in *.
  destruct (chat_start_cases i st now req)
    as [[_ ->]|[(_ & _ & ->)|(_ & _ & E)]]; [done..|].
  fold sid in E. rewrite E.
  destruct (accept_spec (SYSTEM_PROMPT i) sid now (message req) st Hv)
    as (h & st1 & Heq & Hch & Hrt & Hl & Hother & _).
  pose proof (fun l => accept_fresh _ _ _ _ _ _ _ _ s l Hv Hs Heq Hne)
    as Hfresh.
  rewrite Heq.
  destruct (resume_maps i st1 h up iso) as [Hch2 Hrt2].
  rewrite Hch2, Hrt2, Hch, Hrt, !lookup_insert_ne by done.
  split_and!; [done..|].
  unfold transcript. rewrite Hch2, Hch, lookup_insert_ne by done.
  destruct (conversationHistories st !! s) as [l|] eqn:El; simpl; [|done].
  specialize (Hfresh l eq_refl).
  destruct (chat_resume_cases i st1 h up iso)
    as [(r & -> & _)|(reply & _ & ->)]; simpl.
  - by apply Hother.
  - rewrite lookup_push, decide_False by done. by apply Hother.
Qed.

Lemma X6_other_sessions_untouched_witness :
  transcript (chat server_js init 5000 (mkChatBody (JStr "hi") (Some "a"))
                (stub_ok "hello") "").2 "b"
  = transcript init "b".
Proof.
  apply (X6_other_sessions_untouched server_js init 5000
           (mkChatBody (JStr "hi") (Some "a")) (stub_ok "hello") "" "b").
  - apply wf_init.
  - discriminate.
Defined.

(** ** Clearing and the rate limit, clearing and a reply still due *)

Lemma valid_clear (i : Impl) (st : State) (req : ClearBody) :
  valid st -> valid (clear i st req).2.
Proof.
  intros Hv. rewrite clear_same. intros sid l. simpl.
  intros [_ E]%lookup_delete_Some. by eapply Hv.
Qed.

Lemma clear_forgets (i : Impl) (st : State) (req : ClearBody) :
  let sid := session_of (clear_sessionId req) in
  conversationHistories (clear i st req).2 !! sid = None /\
  requestTimes (clear i st req).2 !! sid = None /\
  heap (clear i st req).2 = heap st.
Proof. rewrite clear_same. simpl. by rewrite !lookup_delete_eq. Qed.

(** X7. Clearing a session also lifts its rate limit: the next request of
    the session with a message is accepted at any clock of at least 1000,
    however recent the last accepted request, and it is forwarded with a
    newly seeded transcript of the system message and the user message. *)
Theorem X7_clear_then_chat (i : Impl) (st : State) (creq : ClearBody)
    (now : Z) (req : ChatBody) :
  valid st ->
  session_of (clear_sessionId creq) = session_of (chat_sessionId req) ->
  truthy (message req) = true -> 1000 <= now ->
  let seeded := [system_message (SYSTEM_PROMPT i);
                 mkMessage user (message req)] in
  exists h st',
    chat_start i (clear i st creq).2 now req = (Await h seeded, st') /\
    transcript st' (session_of (chat_sessionId req)) = Some seeded /\
    requestTimes st' !! session_of (chat_sessionId req) = Some now.
Proof.
  intros Hv Hsid T Hnow seeded.
  set (sid := session_of (chat_sessionId req)) in *.
  set (st1 := (clear i st creq).2).
  destruct (clear_forgets i st creq) as (Hch & Hrt & _).
  rewrite Hsid in Hch, Hrt. fold st1 in Hch, Hrt.
  pose proof (valid_clear i st creq Hv) as Hv1. fold st1 in Hv1.
  assert (last_request st1 sid = 0) as Hlast
    by (unfold last_request; by rewrite Hrt).
  pose proof (chat_start_cases i st1 now req) as C. cbv zeta in C.
  fold sid in C. rewrite Hlast in C.
  destruct C as [[F _]|[(_ & H & _)|(_ & _ & E)]]; [congruence|lia|].
  destruct (accept_spec (SYSTEM_PROMPT i) sid now (message req) st1 Hv1)
    as (h & st' & Heq & Hch' & Hrt' & Hl & _ & _).
  assert (prior (SYSTEM_PROMPT i) st1 sid = [system_message (SYSTEM_PROMPT i)])
    as Hp by (unfold prior, transcript; by rewrite Hch).
  rewrite Hp in Heq, Hl. exists h, st'. rewrite E. split_and!; [done| |].
  - eapply transcript_at; [|done]. by rewrite Hch', lookup_insert_eq.
  - by rewrite Hrt', lookup_insert_eq.
Qed.

Lemma X7_clear_then_chat_witness :
  exists h st',
    chat_start part_000
      (clear part_000 (mkState [] ∅ {["default" := 5000]}) (mkClearBody None)).2
      5001 (mkChatBody (JStr "hi") None)
    = (Await h [system_message Part000.SYSTEM_PROMPT;
                mkMessage user (JStr "hi")], st').
Proof.
  destruct (X7_clear_then_chat part_000 (mkState [] ∅ {["default" := 5000]})
              (mkClearBody None) 5001 (mkChatBody (JStr "hi") None))
    as (h & st' & E & _).
  - intros sid l. simpl. by rewrite lookup_empty.
  - reflexivity.
  - reflexivity.
  - lia.
  - by exists h, st'.
Defined.

(** X8. A reply that arrives after its session was cleared is lost: the
    handler pushes it onto the array it holds, which the map no longer
    refers to.  The session stays without transcript, and a transcript
    seeded by a request that came after the clear is a different array,
    which the late reply does not enter. *)
Theorem X8_reply_after_clear (i : Impl) (st : State) (now : Z)
    (req : ChatBody) (h : loc) (sent : list Message) (st1 : State)
    (creq : ClearBody) (up : Upstream) (iso : string) :
  wf (SYSTEM_PROMPT i) st ->
  chat_start i st now req = (Await h sent, st1) ->
  session_of (clear_sessionId creq) = session_of (chat_sessionId req) ->
  let sid := session_of (chat_sessionId req) in
  let st2 := (clear i st1 creq).2 in
  transcript (chat_resume i st2 h up iso).2 sid = None /\
  forall now' req' h' sent' st3,
    session_of (chat_sessionId req') = sid ->
    chat_start i st2 now' req' = (Await h' sent', st3) ->
    h' <> h /\ transcript (chat_resume i st3 h up iso).2 sid = Some sent'.
Proof.
  intros Hwf E Hsid sid st2.
  pose proof (wf_start i st now req Hwf) as Hwf1. rewrite E in Hwf1.
  simpl in Hwf1. destruct Hwf as (Hv & _). destruct Hwf1 as (Hv1 & _).
  destruct (start_await_spec i st now req h sent st1 Hv E) as (_ & _ & Hl & _).
  destruct (clear_forgets i st1 creq) as (Hch2 & _ & Hheap2).
  rewrite Hsid in Hch2. fold sid st2 in Hch2. fold st2 in Hheap2.
  pose proof (valid_clear i st1 creq Hv1) as Hv2. fold st2 in Hv2.
  split.
  - unfold transcript.
    rewrite (proj1 (resume_maps i st2 h up iso)), Hch2. done.
  - intros now' req' h' sent' st3 Hsid' E'.
    pose proof (chat_start_cases i st2 now' req') as C. cbv zeta in C.
    rewrite Hsid' in C.
    destruct C as [[_ H]|[(_ & _ & H)|(_ & _ & H)]];
      rewrite H in E'; [done..|].
    destruct (accept_spec (SYSTEM_PROMPT i) sid now' (message req') st2 Hv2)
      as (h0 & st0 & Heq & Hch3 & _ & Hl3 & _ & Hcase).
    rewrite Heq in E'. simplify_eq.
    destruct Hcase as [Hc|[_ ->]]; [congruence|].
    assert (length (heap st2) <> h) as Hne.
    { rewrite Hheap2. apply lookup_lt_Some in Hl. lia. }
    split; [done|].
    eapply transcript_at.
    + rewrite (proj1 (resume_maps i st3 h up iso)), Hch3.
      apply lookup_insert_eq.
    + destruct (chat_resume_cases i st3 h up iso)
        as [(r & -> & _)|(reply & _ & ->)]; simpl; [done|].
      rewrite lookup_push, decide_False by done. done.
Qed.

Lemma X8_reply_after_clear_witness :
  transcript
    (chat_resume server_js
       (clear server_js
          (chat_start server_js init 5000 (mkChatBody (JStr "hi") None)).2
          (mkClearBody None)).2
       0%nat (stub_ok "hello") "").2 "default"
  = None.
Proof.
  refine (proj1 (X8_reply_after_clear server_js init 5000
    (mkChatBody (JStr "hi") None) 0%nat _ _ (mkClearBody None)
    (stub_ok "hello") "" _ _ _)).
  - apply wf_init.
  - vm_compute. reflexivity.
  - reflexivity.
Defined.

(** ** The wording of the rate-limit answer in [server.js] *)

Lemma ceil_div_unit (a : Z) : 0 < a <= 1000 -> ceil_div a 1000 = 1.
Proof.
  intros H. unfold ceil_div.
  assert (- a / 1000 = -1) as ->; [|done].
  symmetry. apply (Z.div_unique_pos (- a) 1000 (-1) (1000 - a)); lia.
Qed.

Lemma ceil_div_positive (a : Z) : 0 < a -> 1 <= ceil_div a 1000.
Proof.
  intros H. unfold ceil_div.
  assert (- a / 1000 < 0); [|lia].
  apply Z.div_lt_upper_bound; lia.
Qed.

(** X9. [server.js] always tells a rate-limited caller to wait a positive
    number of seconds, and exactly 'Please wait 1s before next message.'
    whenever the stored time is not ahead of the clock. *)
Theorem X9_wait_hint (st : State) (now t : Z) (req : ChatBody) :
  truthy (message req) = true ->
  requestTimes st !! session_of (chat_sessionId req) = Some t ->
  now - t < 1000 ->
  exists wait,
    1 <= wait /\
    ServerJs.chat_start st now req =
      (Done (mkResponse 429 (error_body
         ("Please wait " +:+ pretty wait +:+ "s before next message."))), st) /\
    (0 <= now - t -> wait = 1).
Proof.
  intros T Ht Hlt.
  destruct (rate_limit_answer server_js st now t req T Ht Hlt) as [E _].
  exists (ceil_div (MIN_REQUEST_INTERVAL - (now - t)) 1000).
  unfold MIN_REQUEST_INTERVAL. split_and!.
  - apply ceil_div_positive. lia.
  - exact E.
  - intros H. apply ceil_div_unit. lia.
Qed.

Lemma X9_wait_hint_witness :
  exists wait,
    1 <= wait /\
    ServerJs.chat_start (mkState [] ∅ {["default" := 5000]}) 5400
      (mkChatBody (JStr "hi") None) =
      (Done (mkResponse 429 (error_body
         ("Please wait " +:+ pretty wait +:+ "s before next message."))),
       mkState [] ∅ {["default" := 5000]}) /\
    (0 <= 5400 - 5000 -> wait = 1).
Proof.
  apply (X9_wait_hint (mkState [] ∅ {["default" := 5000]}) 5400 5000
           (mkChatBody (JStr "hi") None)).
  - reflexivity.
  - vm_compute. reflexivity.
  - lia.
Defined.

(** ** The health answer and the key test *)

Lemma string_length_app (s1 s2 : string) :
  String.length (s1 +:+ s2) = (String.length s1 + String.length s2)%nat.
Proof. induction s1 as [|c s1 IH]; simpl; [done|]. by rewrite IH. Qed.

Lemma substring_length_le (n : nat) (s : string) :
  (String.length (substring 0 n s) <= n)%nat.
Proof.
  revert s. induction n as [|n IH]; intros [|c s]; simpl; try lia.
  specialize (IH s). lia.
Qed.

Lemma substring_empty (n : nat) (s : string) :
  substring 0 (S n) s = "" -> s = "".
Proof. by destruct s. Qed.

Lemma key_prefix_short (key : option string) :
  (String.length (key_prefix key) <= 11)%nat.
Proof.
  unfold key_prefix. destruct key as [k|]; simpl; [|lia].
  destruct (negb _); simpl; [|lia].
  rewrite string_length_app. pose proof (substring_length_le 8 k). simpl. lia.
Qed.

Lemma key_prefix_same (k1 k2 : string) :
  substring 0 8 k1 = substring 0 8 k2 ->
  key_prefix (Some k1) = key_prefix (Some k2) /\
  truthy (JStr k1) = truthy (JStr k2).
Proof.
  intros H. unfold key_prefix.
  assert (truthy (JStr k1) = truthy (JStr k2)) as T.
  { simpl. f_equal.
    destruct (String.eqb_spec k1 "") as [->|H1];
      destruct (String.eqb_spec k2 "") as [->|H2]; try done.
    - symmetry in H. by apply substring_empty in H.
    - by apply substring_empty in H. }
  split; [|done]. by rewrite T, H.
Qed.

(** X10. The health answer is a 200 that shows at most 11 characters for
    the key (8 of the key and the dots, or 'Not set'), and it depends on
    the key only through its first 8 characters: two keys that begin alike
    give the same answer. *)
Theorem X10_health_redacts (i : Impl) (k1 k2 : string) :
  substring 0 8 k1 = substring 0 8 k2 ->
  health i (Some k1) = health i (Some k2) /\
  status (health i (Some k1)) = 200 /\
  prop (body (health i (Some k1)))
       (match i with server_js => "apiKey" | part_000 => "apiKeyPrefix" end)
    = JStr (key_prefix (Some k1)) /\
  (String.length (key_prefix (Some k1)) <= 11)%nat.
Proof.
  intros H. destruct (key_prefix_same k1 k2 H) as [Hp T].
  split_and!.
  - destruct i; simpl; unfold ServerJs.health, Part000.health, env_val;
      by rewrite Hp, T.
  - by destruct i.
  - by destruct i.
  - apply key_prefix_short.
Qed.

Lemma X10_health_redacts_witness :
  health server_js (Some "sk-or-v1-aaaa") = health server_js (Some "sk-or-v1-bbbb").
Proof.
  apply (X10_health_redacts server_js "sk-or-v1-aaaa" "sk-or-v1-bbbb").
  reflexivity.
Defined.

(** X11. The key test answers 200 exactly when the upstream responded with
    a body that parses as JSON, whatever the upstream status: a refused key
    is reported as [valid: false] in a 200, not as an error.  In every other
    case the answer is a 500 with an [error] body. *)
Theorem X11_test_key_status (i : Impl) (up : Upstream) :
  (forall r data, up = Responded r -> up_json r = ParseOk data ->
     test_key i up =
       res_json (JObj [("valid", JBool (up_ok r));
                       ("status", JNum (up_status r)); ("data", data)]) /\
     (prop (body (test_key i up)) "valid" = JBool true <->
      200 <= up_status r <= 299)) /\
  ((forall r data, up = Responded r -> up_json r <> ParseOk data) ->
     is_error (test_key i up) /\ status (test_key i up) = 500).
Proof.
  assert (test_key i = ServerJs.test_key) as -> by (by destruct i).
  split.
  - intros r data -> Hj. unfold ServerJs.test_key, json_parse. rewrite Hj.
    split; [done|]. simpl. unfold up_ok. split.
    + intros [= H]. lia.
    + intros H. f_equal. lia.
  - intros Hno. unfold ServerJs.test_key, json_parse.
    destruct up as [m|r]; [split; [apply is_error_500|done]|].
    destruct (up_json r) as [m|data] eqn:E; [split; [apply is_error_500|done]|].
    by destruct (Hno r data).
Qed.

Lemma X11_test_key_status_witness :
  test_key part_000
    (Responded (mkUpResponse 401 "{}" (ParseOk (JObj [])))) =
  res_json (JObj [("valid", JBool false); ("status", JNum 401);
                  ("data", JObj [])]).
Proof.
  refine (proj1 (proj1 (X11_test_key_status part_000
    (Responded (mkUpResponse 401 "{}" (ParseOk (JObj [])))))
    (mkUpResponse 401 "{}" (ParseOk (JObj []))) (JObj []) _ _));
    reflexivity.
Defined.

(** ** The error text of [server.js] *)

Lemma server_error_text (r : UpResponse) (fields : list (string * jsval)) :
  up_ok r = false -> up_json r = ParseOk (JObj fields) ->
  ServerJs.extract_reply (Responded r) =
    Throw (to_string
      (js_or (js_or (opt_prop (assoc "error" fields) "message")
                    (assoc "message" fields))
             (JStr "Unknown error"))).
Proof. intros Hok Hj. unfold ServerJs.extract_reply. by rewrite Hok, Hj. Qed.

(** X12. On a non-success upstream answer with a JSON object as body,
    [server.js] reports the text at [error.message] when there is one, else
    the text at [message], else 'Unknown error' (so an [error] that is
    itself a text is not reported); on the body [null] it reports the
    [TypeError] of reading [error].  The answer is a 500 and the state is
    kept in each case. *)
Theorem X12_error_text (st : State) (h : loc) (r : UpResponse) (iso : string) :
  up_ok r = false ->
  let out := ServerJs.chat_resume st h (Responded r) iso in
  (forall fields efields m,
     up_json r = ParseOk (JObj fields) ->
     assoc "error" fields = JObj efields ->
     assoc "message" efields = JStr m -> m <> "" ->
     out = (mkResponse 500 (error_body m), st)) /\
  (forall fields m,
     up_json r = ParseOk (JObj fields) ->
     truthy (opt_prop (assoc "error" fields) "message") = false ->
     assoc "message" fields = JStr m -> m <> "" ->
     out = (mkResponse 500 (error_body m), st)) /\
  (forall fields,
     up_json r = ParseOk (JObj fields) ->
     truthy (opt_prop (assoc "error" fields) "message") = false ->
     truthy (assoc "message" fields) = false ->
     out = (mkResponse 500 (error_body "Unknown error"), st)) /\
  (forall fields e,
     up_json r = ParseOk (JObj fields) ->
     assoc "error" fields = JStr e ->
     truthy (opt_prop (assoc "error" fields) "message") = false) /\
  (up_json r = ParseOk JNull ->
     out = (mkResponse 500 (error_body
              "Cannot read properties of null (reading 'error')"), st)).
Proof.
  intros Hok out. subst out. unfold ServerJs.chat_resume.
  split_and!.
  - intros fields efields m Hj He Hm Hne.
    rewrite (server_error_text r fields Hok Hj), He.
    change (opt_prop (JObj efields) "message") with (assoc "message" efields).
    rewrite Hm. unfold js_or. by rewrite !(truthy_text m Hne).
  - intros fields m Hj Hn Hm Hne.
    rewrite (server_error_text r fields Hok Hj). unfold js_or.
    rewrite Hn, Hm. by rewrite !(truthy_text m Hne).
  - intros fields Hj Hn Hm.
    rewrite (server_error_text r fields Hok Hj). unfold js_or.
    by rewrite Hn, Hm.
  - intros fields e _ ->. done.
  - intros Hj. unfold ServerJs.extract_reply. by rewrite Hok, Hj.
Qed.

Lemma X12_error_text_witness :
  ServerJs.chat_resume init 0%nat
    (Responded (mkUpResponse 401 "" (ParseOk
       (JObj [("error", JObj [("message", JStr "No auth credentials found");
                              ("code", JNum 401)])]))))
    ""
  = (mkResponse 500 (error_body "No auth credentials found"), init).
Proof.
  refine (proj1 (X12_error_text init 0%nat _ "" _) _ _ _ _ _ _ _).
  - reflexivity.
  - reflexivity.
  - reflexivity.
  - reflexivity.
  - discriminate.
Defined.

(** ** Reaper runs compose *)

Lemma state_eq (st1 st2 : State) :
  heap st1 = heap st2 ->
  conversationHistories st1 = conversationHistories st2 ->
  requestTimes st1 = requestTimes st2 -> st1 = st2.
Proof. destruct st1, st2. simpl. by intros -> -> ->. Qed.

(** X13. Two reaper runs in a row leave the state of one run at the later
    of the two clocks; in particular a second run at the same clock changes
    nothing. *)
Theorem X13_reaper_twice (i : Impl) (st : State) (now1 now2 : Z) :
  reaper i (reaper i st now1) now2 = reaper i st (Z.max now1 now2) /\
  reaper i (reaper i st now1) now1 = reaper i st now1.
Proof.
  assert (forall n1 n2,
    reaper i (reaper i st n1) n2 = reaper i st (Z.max n1 n2)) as H.
  { intros n1 n2.
    destruct (reaper_spec i st n1) as [Hh1 Hl1].
    destruct (reaper_spec i (reaper i st n1) n2) as [Hh2 Hl2].
    destruct (reaper_spec i st (Z.max n1 n2)) as [Hh3 Hl3].
    apply state_eq; [congruence|apply map_eq; intros sid..];
      destruct (Hl1 sid) as [Hc1 Hr1];
      destruct (Hl2 sid) as [Hc2 Hr2];
      destruct (Hl3 sid) as [Hc3 Hr3];
      rewrite ?Hc2, ?Hr2, ?Hc3, ?Hr3; unfold expired in *; rewrite Hr1;
      rewrite ?Hc1; destruct (requestTimes st !! sid) as [t|]; try done;
      destruct (Z.ltb_spec t (n1 - 3600000)); simpl;
      destruct (Z.ltb_spec t (Z.max n1 n2 - 3600000)); try done; try lia;
      destruct (Z.ltb_spec t (n2 - 3600000)); try done; lia. }
  split; [apply H|]. rewrite H. by rewrite Z.max_id.
Qed.

(** ** Configuration *)

Lemma env_or_nonempty (o : option string) (d : string) :
  d <> "" -> env_or o d <> "".
Proof.
  intros Hd. unfold env_or, js_or, env_val. destruct o as [s|]; simpl.
  - destruct (String.eqb_spec s ""); simpl; done.
  - done.
Qed.

(** X14. The application URL sent as referer is never empty; a non-empty
    [VERCEL_URL] decides it, prefixed with the scheme, whatever [APP_URL]
    holds; otherwise a non-empty [APP_URL] does; otherwise it is the local
    default.  The upstream URL is never empty either. *)
Theorem X14_configured_urls (vercel_url app_url openrouter_url : option string) :
  APP_URL vercel_url app_url <> "" /\
  OPENROUTER_URL openrouter_url <> "" /\
  (forall v, vercel_url = Some v -> v <> "" ->
     APP_URL vercel_url app_url = "https://" +:+ v) /\
  (vercel_url = None \/ vercel_url = Some "" ->
   (forall a, app_url = Some a -> a <> "" -> APP_URL vercel_url app_url = a) /\
   (app_url = None \/ app_url = Some "" ->
    APP_URL vercel_url app_url = "http://localhost:3000")).
Proof.
  split_and!.
  - unfold APP_URL. destruct (truthy (env_val vercel_url)); [done|].
    by apply env_or_nonempty.
  - by apply env_or_nonempty.
  - intros v -> Hv. unfold APP_URL. simpl.
    by rewrite (proj2 (String.eqb_neq v "") Hv).
  - intros Hv. assert (APP_URL vercel_url app_url
                       = env_or app_url "http://localhost:3000") as ->
      by (by destruct Hv as [-> | ->]).
    split.
    + intros a -> Ha. unfold env_or, js_or. simpl.
      by rewrite (proj2 (String.eqb_neq a "") Ha).
    + by intros [-> | ->].
Qed.

Lemma X14_configured_urls_witness :
  APP_URL (Some "shw.vercel.app") (Some "http://example.org")
  = "https://shw.vercel.app".
Proof.
  refine (proj1 (proj2 (proj2 (X14_configured_urls (Some "shw.vercel.app")
            (Some "http://example.org") None))) "shw.vercel.app" _ _).
  - reflexivity.
  - discriminate.
Defined.

(** ** The reaper and a session in use *)

(** X15. A session whose request was accepted at clock [now] keeps its
    stored time and the transcript that was forwarded through every reaper
    run at a clock of at most [now + 3600000]; a run at a later clock
    removes both. *)
Theorem X15_reaper_spares_active (i : Impl) (st : State) (now : Z)
    (req : ChatBody) (h : loc) (sent : list Message) (st1 : State)
    (later : Z) :
  valid st ->
  chat_start i st now req = (Await h sent, st1) ->
  let sid := session_of (chat_sessionId req) in
  (later <= now + 3600000 ->
   requestTimes (reaper i st1 later) !! sid = Some now /\
   transcript (reaper i st1 later) sid = Some sent) /\
  (now + 3600000 < later ->
   requestTimes (reaper i st1 later) !! sid = None /\
   transcript (reaper i st1 later) sid = None).
Proof.
  intros Hv E sid.
  destruct (start_await_spec i st now req h sent st1 Hv E)
    as (_ & Hch & Hl & Htr). fold sid in Hch, Htr.
  assert (requestTimes st1 !! sid = Some now) as Hrt.
  { destruct (chat_start_cases i st now req)
      as [[_ H]|[(_ & _ & H)|(_ & _ & H)]]; rewrite H in E; [done..|].
    pose proof (accept_times (SYSTEM_PROMPT i) sid now (message req) st) as A.
    fold sid in E. rewrite E in A. simpl in A. by rewrite A, lookup_insert_eq. }
  destruct (reaper_spec i st1 later) as [Hheap Hlook].
  destruct (Hlook sid) as [Hc Hr].
  unfold transcript. rewrite Hheap, Hc, Hr. unfold expired. rewrite Hrt, Hch.
  split; intros H.
  - destruct (Z.ltb_spec now (later - 3600000)); [lia|]. simpl. by rewrite Hl.
  - destruct (Z.ltb_spec now (later - 3600000)); [done|lia].
Qed.

Lemma X15_reaper_spares_active_witness :
  requestTimes
    (reaper server_js
       (chat_start server_js init 5000 (mkChatBody (JStr "hi") None)).2
       3605000) !! "default"
  = Some 5000.
Proof.
  refine (proj1 (proj1 (X15_reaper_spares_active server_js init 5000
    (mkChatBody (JStr "hi") None) 0%nat _ _ 3605000 _ _) _)).
  - apply valid_init.
  - vm_compute. reflexivity.
  - lia.
Defined.
